(** * geomdl.multi: containers of spline geometries

    A shallow embedding of [geomdl/multi.py] (class [AbstractContainer] and
    its three exported specializations) together with the properties of
    insertion, flattening, caching, indexing, iteration, merging and
    bounding boxes.

    Python objects live in a store and are named by references, so that
    in-place mutation, object identity and aliasing (a container inserted
    into itself, a container merged with [+]) are visible in the model.
    Methods are functions from a store to an outcome that carries the store
    reached, also when an exception is raised. *)

From Stdlib Require Import ZArith List Bool Lia.
From stdpp Require Import base numbers list.

Local Open Scope Z_scope.

(** ** Data model *)

(** The three kinds of spline geometry the library knows (the concrete
    subclasses of [SplineGeometry]). *)
Inductive GeomKind := Curve | Surface | Volume.

(** Coordinates are only ever compared, never computed with, by the code
    below: integers stand for them. *)
Abbreviation point := (list Z).

(** What is read of an element: its concrete kind, [g.evalpts] and
    [g.bbox] (a pair of corner points, lower then upper). *)
Module SplineGeometry.
Record t := Build {
  kind : GeomKind;
  evalpts : list point;
  bbox : point * point
}.
End SplineGeometry.

(** References to container objects in the store. *)
Abbreviation ref := nat.

(** The three exported container classes; they are siblings, so
    [isinstance(x, C)] for a container [x] holds exactly when [x] was built
    by class [C]. *)
Inductive ContainerClass := CurveContainer | SurfaceContainer | VolumeContainer.

(** A Python value as [add] can receive it. *)
#[warnings="-register-all"]
Inductive value :=
| VGeom (g : SplineGeometry.t)   (* an instance of SplineGeometry *)
| VSeq (items : list value)      (* a list or tuple: GeomdlTypeSequence *)
| VCont (r : ref)                (* a container object *)
| VObject.                       (* any other object *)

(** The attributes of a container object. [_cache_evalpts] is the slot
    [self._cache['evalpts']]. *)
Record Container := mkContainer {
  __class__ : ContainerClass;
  _geoms : list value;
  _cache_evalpts : list point;
  _iter_index : Z
}.

Abbreviation store := (list Container).

Definition set_geoms (c : Container) (l : list value) : Container :=
  mkContainer (__class__ c) l (_cache_evalpts c) (_iter_index c).
Definition set_cache (c : Container) (l : list point) : Container :=
  mkContainer (__class__ c) (_geoms c) l (_iter_index c).
Definition set_iter (c : Container) (i : Z) : Container :=
  mkContainer (__class__ c) (_geoms c) (_cache_evalpts c) i.

Global Instance GeomKind_eq_dec : EqDecision GeomKind.
Proof. solve_decision. Defined.
Global Instance ContainerClass_eq_dec : EqDecision ContainerClass.
Proof. solve_decision. Defined.

(** ** Exceptions and outcomes *)

Inductive exn :=
| GeomdlError      (* raised by add and __add__ *)
| IndexError       (* raised by list indexing *)
| StopIteration    (* raised by __next__ *)
| AttributeError   (* reading an attribute the object does not have *)
| EmptyContainer   (* a bounding box asked of no element at all *)
| BadReference.    (* a reference outside the store; no Python program builds one *)

(** The result of running a method: it returned, it raised, or the model
    ran out of fuel. The store is the one reached when the method stopped. *)
Inductive outcome (A : Type) :=
| Done (a : A) (h : store)
| Raise (e : exn) (h : store)
| Timeout.
Arguments Done {A} a h.
Arguments Raise {A} e h.
Arguments Timeout {A}.

Definition M (A : Type) : Type := store -> outcome A.

Definition ret {A} (a : A) : M A := fun h => Done a h.
Definition raise {A} (e : exn) : M A := fun h => Raise e h.
Definition bind {A B} (m : M A) (k : A -> M B) : M B :=
  fun h => match m h with
           | Done a h' => k a h'
           | Raise e h' => Raise e h'
           | Timeout => Timeout
           end.

Notation "'let*' x ':=' m 'in' k" := (bind m (fun x => k))
  (at level 10, x name, m at level 100, k at level 200).
Notation "m ';;' k" := (bind m (fun _ => k))
  (at level 100, k at level 200, right associativity).

(** Reading and updating the object behind a reference. *)
Definition deref (r : ref) : M Container :=
  fun h => match h !! r with
           | Some c => Done c h
           | None => Raise BadReference h
           end.

Definition update (r : ref) (f : Container -> Container) : M unit :=
  fun h => match h !! r with
           | Some c => Done tt (<[r := f c]> h)
           | None => Raise BadReference h
           end.

(** ** Host-language list indexing

    [l[i]] on a Python list: a negative index counts from the end, and an
    index outside the list raises IndexError ([None] here). *)
Definition list_getitem {A} (l : list A) (i : Z) : option A :=
  let n := Z.of_nat (length l) in
  let j := if i <? 0 then i + n else i in
  if (j <? 0) || (n <=? j) then None else l !! Z.to_nat j.

(** ** Methods of [AbstractContainer] *)

(** [__getitem__]: [return self._geoms[index]]. *)
Definition __getitem__ (self : ref) (index : Z) : M value :=
  let* c := deref self in
  match list_getitem (_geoms c) index with
  | Some g => ret g
  | None => raise IndexError
  end.

(** [__len__]: [return len(self._geoms)]. *)
Definition __len__ (self : ref) : M Z :=
  let* c := deref self in
  ret (Z.of_nat (length (_geoms c))).

(** A [for] loop over a list or tuple. *)
Fixpoint for_each {A} (l : list A) (body : A -> M unit) : M unit :=
  match l with
  | [] => ret tt
  | x :: l' => body x ;; for_each l' body
  end.

(** Modelled from the spec: [__iter__] is inherited from a base class that
    is not part of [multi.py]. "iter_cursor: transient iteration position,
    reset at the start of each full traversal": the cursor goes back to 0
    and the container is its own iterator. *)
Definition __iter__ (self : ref) : M ref :=
  update self (fun c => set_iter c 0) ;; ret self.

(** [__next__]: the element under the cursor, StopIteration past the end. *)
Definition __next__ (self : ref) : M value :=
  let* c := deref self in
  match list_getitem (_geoms c) (_iter_index c) with
  | None => raise StopIteration
  | Some result =>
      update self (fun c => set_iter c (_iter_index c + 1)) ;; ret result
  end.

(** The [for g in it: body] protocol on an iterator object: [__next__] is
    called until it raises StopIteration. *)
Fixpoint for_next (fuel : nat) (it : ref) (body : value -> M unit) : M unit :=
  match fuel with
  | O => fun _ => Timeout
  | S n => fun h =>
      match __next__ it h with
      | Done g h1 => (body g ;; for_next n it body) h1
      | Raise StopIteration h1 => Done tt h1
      | Raise e h1 => Raise e h1
      | Timeout => Timeout
      end
  end.

(** The elements a full forward traversal produces, as [list(c)] would
    gather them. *)
Fixpoint gather_next (fuel : nat) (it : ref) : M (list value) :=
  match fuel with
  | O => fun _ => Timeout
  | S n => fun h =>
      match __next__ it h with
      | Done g h1 => (let* rest := gather_next n it in ret (g :: rest)) h1
      | Raise StopIteration h1 => Done [] h1
      | Raise e h1 => Raise e h1
      | Timeout => Timeout
      end
  end.

Definition iterate (fuel : nat) (self : ref) : M (list value) :=
  let* it := __iter__ self in gather_next fuel it.

(** [__reversed__]: [return reversed(self._geoms)], the elements from the
    last to the first. *)
Definition __reversed__ (self : ref) : M (list value) :=
  let* c := deref self in
  ret (rev (_geoms c)).

(** Modelled from the spec: [reset] is inherited from a base class that is
    not part of [multi.py]. "evalpts_cache is invalidated (cleared)": the
    slot goes back to the empty list. *)
Definition reset (self : ref) : M unit :=
  update self (fun c => set_cache c []).

(** The three [isinstance] tests of [add]. *)
Definition isinstance_container (h : store) (k : ContainerClass) (v : value) : bool :=
  match v with
  | VCont r => match h !! r with
               | Some c => bool_decide (__class__ c = k)
               | None => false
               end
  | _ => false
  end.

Definition isinstance_sequence (v : value) : bool :=
  match v with VSeq _ => true | _ => false end.

Definition isinstance_spline (v : value) : bool :=
  match v with VGeom _ => true | _ => false end.

(** [for g in geom: body]: a list is walked directly, a container through
    [__iter__] and [__next__]. *)
Definition for_in (fuel : nat) (geom : value) (body : value -> M unit) : M unit :=
  match geom with
  | VSeq items => for_each items body
  | VCont r => let* it := __iter__ r in for_next fuel it body
  | _ => raise AttributeError
  end.

(** [add]; [append] is the same method under another name. *)
Fixpoint add (fuel : nat) (self : ref) (geom : value) : M unit :=
  match fuel with
  | O => fun _ => Timeout
  | S n =>
      let* c := deref self in
      (fun h =>
         (if isinstance_container h (__class__ c) geom || isinstance_sequence geom
          then for_in n geom (add n self)
          else if isinstance_spline geom
          then update self (fun c => set_geoms c (_geoms c ++ [geom]))
          else raise GeomdlError) h) ;;
      reset self
  end.

Definition append := add.

(** [__add__]: the merge operator. It returns [self]. *)
Definition __add__ (fuel : nat) (self : ref) (other : value) : M ref :=
  let* c := deref self in
  fun h =>
    (if negb (isinstance_container h (__class__ c) other)
     then raise GeomdlError
     else add fuel self other ;; ret self) h.

(** [__init__]: a new object with no element and an empty cache slot, then
    every positional argument is added. *)
Definition alloc (c : Container) : M ref :=
  fun h => Done (length h) (h ++ [c]).

Definition __init__ (fuel : nat) (k : ContainerClass) (args : list value) : M ref :=
  let* self := alloc (mkContainer k [] [] 0) in
  for_each args (add fuel self) ;; ret self.

(** The truth value of [self._cache['evalpts']]: a non-empty list. *)
Definition cache_hit (c : Container) : bool :=
  match _cache_evalpts c with [] => false | _ => true end.

(** [evalpts]. An element that is itself a container answers through the
    same property. *)
Fixpoint evalpts (fuel : nat) (self : ref) : M (list point) :=
  match fuel with
  | O => fun _ => Timeout
  | S n =>
      let* c := deref self in
      (if cache_hit c then ret tt
       else for_each (_geoms c) (fun g =>
              let* pts := match g with
                          | VGeom sg => ret (SplineGeometry.evalpts sg)
                          | VCont r => evalpts n r
                          | _ => raise AttributeError
                          end in
              update self (fun c => set_cache c (_cache_evalpts c ++ pts)))) ;;
      let* c := deref self in
      ret (_cache_evalpts c)
  end.

(** Per-axis minimum and maximum of two points. *)
Definition point_min (p q : point) : point := zip_with Z.min p q.
Definition point_max (p q : point) : point := zip_with Z.max p q.

(** Modelled from the spec: [utilities.evaluate_bounding_box] is not part of
    [multi.py]. The pool it receives is the flat list [all_box] that [bbox]
    builds, two corner points for each element; it "derives a single
    enclosing box by taking, per axis, the minimum of all lower bounds and
    the maximum of all upper bounds across the pooled extents". The flat
    pool does not say any more which corner is a lower one, so the minimum
    and the maximum run over every pooled corner; [pool_lower_upper] shows
    that this is the minimum of the lower and the maximum of the upper
    corners whenever the pooled boxes are well formed. On no element at all
    the specification leaves the policy open: the function fails. *)
Definition evaluate_bounding_box (pool : list point) : option (point * point) :=
  match pool with
  | [] => None
  | p :: ps => Some (foldl point_min p ps, foldl point_max p ps)
  end.

(** [bbox]: the corners of every element's box are pooled, in element
    order, and the pool is handed to [evaluate_bounding_box]. *)
Fixpoint bbox (fuel : nat) (self : ref) : M (point * point) :=
  match fuel with
  | O => fun _ => Timeout
  | S n =>
      let* c := deref self in
      let* all_box :=
        (fix pool (l : list value) : M (list point) :=
           match l with
           | [] => ret []
           | g :: l' =>
               let* b := match g with
                         | VGeom sg => ret (SplineGeometry.bbox sg)
                         | VCont r => bbox n r
                         | _ => raise AttributeError
                         end in
               let* rest := pool l' in
               ret ([fst b; snd b] ++ rest)
           end) (_geoms c) in
      match evaluate_bounding_box all_box with
      | Some b => ret b
      | None => raise EmptyContainer
      end
  end.

(** ** Well-formed stores and boxes *)

Definition is_spline (v : value) : Prop :=
  match v with VGeom _ => True | _ => False end.

(** Every element of every container is a spline geometry. *)
Definition store_ok (h : store) : Prop :=
  forall r c, h !! r = Some c -> Forall is_spline (_geoms c).

(** The element list and the cache slot of the object behind a reference. *)
Definition geoms_of (h : store) (r : ref) : list value :=
  match h !! r with Some c => _geoms c | None => [] end.

Definition cache_of (h : store) (r : ref) : list point :=
  match h !! r with Some c => _cache_evalpts c | None => [] end.

(** [g.evalpts] for an element that is a spline geometry. *)
Definition elem_evalpts (v : value) : list point :=
  match v with VGeom g => SplineGeometry.evalpts g | _ => [] end.

(** A box is well formed when its corners have one coordinate per axis and
    the lower corner is below the upper one on every axis. *)
Definition box_ok (b : point * point) : Prop :=
  Forall2 Z.le (fst b) (snd b).

(** The pool [bbox] builds from a list of boxes. *)
Definition corners (bs : list (point * point)) : list point :=
  flat_map (fun b => [fst b; snd b]) bs.

(** The kind of geometry each specialization is named and documented for
    ("Container for B-spline and NURBS curves", and so on). No method reads
    it. *)
Definition documented_kind (k : ContainerClass) : GeomKind :=
  match k with
  | CurveContainer => Curve
  | SurfaceContainer => Surface
  | VolumeContainer => Volume
  end.

(** ** A pure reading of [add] *)

(** One call [self.add(v)] on store [h], where [self] has class [k], read
    off the argument alone: the values it appends, whether it goes through
    ([true]) or meets an item it rejects ([false]), and whether some nested
    call to [add] had returned by then. A reference to [self] contributes
    nothing: the loop over [self] only ever ends when [self] is empty. *)
Definition scan_items (f : value -> list value * bool * bool) :=
  fix go (l : list value) : list value * bool * bool :=
    match l with
    | [] => ([], true, false)
    | x :: l' =>
        match f x with
        | (a, true, _) => match go l' with (b, ok, _) => (a ++ b, ok, true) end
        | (a, false, d) => (a, false, d)
        end
    end.

Fixpoint scan (h : store) (self : ref) (k : ContainerClass) (v : value)
  : list value * bool * bool :=
  match v with
  | VGeom _ => ([v], true, false)
  | VSeq items => scan_items (scan h self k) items
  | VCont r =>
      match h !! r with
      | Some c =>
          if bool_decide (__class__ c = k)
          then (if decide (r = self) then [] else _geoms c, true, false)
          else ([], false, false)
      | None => ([], false, false)
      end
  | VObject => ([], false, false)
  end.

(** How a call on [self] may change the store: no object appears or
    disappears, no class changes, the other containers keep their elements
    and their cache, and [self] gains the elements [l] at its end. *)
Record evolve (self : ref) (l : list value) (h h' : store) : Prop := {
  ev_length : length h' = length h;
  ev_self : forall c, h !! self = Some c ->
    exists c', h' !! self = Some c' /\ __class__ c' = __class__ c
               /\ _geoms c' = _geoms c ++ l;
  ev_other : forall r c, r <> self -> h !! r = Some c ->
    exists c', h' !! r = Some c' /\ __class__ c' = __class__ c
               /\ _geoms c' = _geoms c
               /\ _cache_evalpts c' = _cache_evalpts c
}.

(** The same with the cache slot of [self]: cleared when [d] holds, as it
    was otherwise, in which case nothing at all has changed. *)
Record post (self : ref) (l : list value) (d : bool) (h h' : store) : Prop := {
  post_evolve : evolve self l h h';
  post_cache : cache_of h' self = if d then [] else cache_of h self;
  post_clean : d = false -> h' = h
}.

(** What an insertion may end in, against the pure reading [sc] of it:
    when it returns, [sc] went through and the cache slot is cleared (for a
    bare loop: if some call returned); when it raises, the error is
    GeomdlError, [sc] met a rejected item, and the elements accepted before
    it have been appended. *)
Definition add_post (final : bool) (self : ref) (sc : list value * bool * bool)
  (h : store) (o : outcome unit) : Prop :=
  match o with
  | Timeout => True
  | Done _ h' =>
      exists l d, sc = (l, true, d) /\ Forall is_spline l
                  /\ post self l (final || d) h h'
  | Raise e h' =>
      e = GeomdlError
      /\ exists l d, sc = (l, false, d) /\ Forall is_spline l
                     /\ post self l d h h'
  end.

(** The arguments [add] accepts without entering a loop over the receiver
    itself: spline geometries, sequences of such arguments, and other
    containers of the receiver's class. *)
Fixpoint insertable (h : store) (self : ref) (k : ContainerClass) (v : value) : bool :=
  match v with
  | VGeom _ => true
  | VSeq items => forallb (insertable h self k) items
  | VCont r =>
      bool_decide (r <> self)
      && match h !! r with
         | Some c => bool_decide (__class__ c = k)
         | None => false
         end
  | VObject => false
  end.

(** The leaf geometries of an argument, flattened in order. *)
Fixpoint leaves (h : store) (v : value) : list value :=
  match v with
  | VGeom _ => [v]
  | VSeq items => flat_map (leaves h) items
  | VCont r => geoms_of h r
  | VObject => []
  end.

(** Fuel that is enough for one call of [add]: one unit for each level of
    nesting, and for a container one turn of the loop for each element and
    one more for StopIteration. *)
Fixpoint fuel_for (h : store) (v : value) : nat :=
  match v with
  | VSeq items => S (list_max (map (fuel_for h) items))
  | VCont r => S (S (length (geoms_of h r)))
  | _ => 1%nat
  end.

(** ** Sample objects *)

Definition curve1 : SplineGeometry.t :=
  SplineGeometry.Build Curve [[0; 0]; [1; 1]] ([0; 0], [1; 1]).
Definition curve2 : SplineGeometry.t :=
  SplineGeometry.Build Curve [[2; 0]; [3; -1]] ([2; -1], [3; 0]).
Definition surface1 : SplineGeometry.t :=
  SplineGeometry.Build Surface [[5; 5; 5]] ([5; 5; 5], [5; 5; 5]).
(** A curve that yields no evaluated point. *)
Definition blank1 : SplineGeometry.t :=
  SplineGeometry.Build Curve [] ([0; 0], [0; 0]).

Definition empty_curves : store := [mkContainer CurveContainer [] [] 0].

Definition one_curve : store := [mkContainer CurveContainer [VGeom curve2] [] 0].

Definition blank_only : store := [mkContainer CurveContainer [VGeom blank1] [] 0].

Definition two_curves : store :=
  [mkContainer CurveContainer [VGeom curve1; VGeom curve2] [] 0].

(** One curve and its evaluated points in the cache slot. *)
Definition cached_curve : store :=
  [mkContainer CurveContainer [VGeom curve1] [[0; 0]; [1; 1]] 0].

Definition curves_pair : store :=
  [mkContainer CurveContainer [VGeom curve1] [] 0;
   mkContainer CurveContainer [VGeom curve2; VGeom blank1] [] 0].

Definition curves_and_surfaces : store :=
  [mkContainer CurveContainer [VGeom curve1] [[0; 0]; [1; 1]] 0;
   mkContainer SurfaceContainer [VGeom surface1] [] 0].

(** ** The [data] property and further vocabulary *)

(** What the [data] property returns: the export of one spline geometry,
    or a tuple of such values. *)
#[warnings="-register-all"]
Inductive pydata (D : Type) :=
| PData (d : D)
| PTuple (items : list (pydata D)).
Arguments PData {D} d.
Arguments PTuple {D} items.

(** [data]: [tuple([g.data for g in self._geoms])]. The export [g.data] of
    a spline geometry belongs to the element classes, which are not part
    of [multi.py]: it is the parameter [elem_data]. An element that is
    itself a container answers through the same property. *)
Fixpoint data {D} (elem_data : SplineGeometry.t -> D) (fuel : nat) (self : ref)
  : M (pydata D) :=
  match fuel with
  | O => fun _ => Timeout
  | S n =>
      let* c := deref self in
      let* items :=
        (fix each (l : list value) : M (list (pydata D)) :=
           match l with
           | [] => ret []
           | g :: l' =>
               let* d := match g with
                         | VGeom sg => ret (PData (elem_data sg))
                         | VCont r => data elem_data n r
                         | _ => raise AttributeError
                         end in
               let* rest := each l' in
               ret (d :: rest)
           end) (_geoms c) in
      ret (PTuple items)
  end.

(** [g.data] and [g.bbox] for an element that is a spline geometry. *)
Definition elem_export {D} (elem_data : SplineGeometry.t -> D) (v : value) : pydata D :=
  match v with VGeom g => PData (elem_data g) | _ => PTuple [] end.

Definition elem_bbox (v : value) : point * point :=
  match v with VGeom g => SplineGeometry.bbox g | _ => ([], []) end.

(** A populated cache slot holds the evaluated points of the elements, in
    element order. *)
Definition cache_ok (h : store) : Prop :=
  forall r c, h !! r = Some c ->
    _cache_evalpts c = [] \/ _cache_evalpts c = flat_map elem_evalpts (_geoms c).

(** Box [outer] encloses box [inner] on every axis. *)
Definition encloses (outer inner : point * point) : Prop :=
  Forall2 Z.le (fst outer) (fst inner) /\ Forall2 Z.le (snd inner) (snd outer).

(** ** Indexing *)

Lemma list_getitem_nonneg {A} (l : list A) (i : Z) :
  0 <= i -> list_getitem l i = l !! Z.to_nat i.
Proof.
  intros Hi. unfold list_getitem.
  destruct (Z.ltb_spec i 0); [lia|].
  destruct (Z.ltb_spec i 0); [lia|]. simpl.
  destruct (Z.leb_spec (Z.of_nat (length l)) i); [|done].
  symmetry. apply lookup_ge_None. lia.
Qed.

Lemma list_getitem_negative {A} (l : list A) (k : Z) :
  1 <= k <= Z.of_nat (length l) ->
  list_getitem l (- k) = l !! (length l - Z.to_nat k)%nat.
Proof.
  intros Hk. unfold list_getitem.
  destruct (Z.ltb_spec (- k) 0); [|lia].
  destruct (Z.ltb_spec (- k + Z.of_nat (length l)) 0); [lia|]. simpl.
  destruct (Z.leb_spec (Z.of_nat (length l)) (- k + Z.of_nat (length l))); [lia|].
  f_equal. lia.
Qed.

(** C7. Indexing a container at its own length raises IndexError and
    leaves the store as it was; indexing at any [i] with [0 <= i < len]
    returns the element at position [i] of the element list. *)
Theorem getitem_in_and_past_range (h : store) (self : ref) (c : Container) :
  h !! self = Some c ->
  (let* n := __len__ self in __getitem__ self n) h = Raise IndexError h
  /\ forall i : Z, 0 <= i < Z.of_nat (length (_geoms c)) ->
       exists g, _geoms c !! Z.to_nat i = Some g
                 /\ __getitem__ self i h = Done g h.
Proof.
  intros Hc. split.
  - unfold __len__, __getitem__, bind, deref, ret, raise. rewrite Hc. simpl.
    rewrite Hc, list_getitem_nonneg, Nat2Z.id by lia.
    by rewrite (proj2 (lookup_ge_None (_geoms c) (length (_geoms c)))).
  - intros i Hi.
    destruct (lookup_lt_is_Some_2 (_geoms c) (Z.to_nat i)) as [g Hg]; [lia|].
    exists g. split; [done|].
    unfold __getitem__, bind, deref, ret. rewrite Hc.
    by rewrite list_getitem_nonneg, Hg by lia.
Qed.

Lemma getitem_in_and_past_range_witness :
  (let* n := __len__ 0%nat in __getitem__ 0%nat n) two_curves
    = Raise IndexError two_curves
  /\ forall i : Z, 0 <= i < 2 ->
       exists g, [VGeom curve1; VGeom curve2] !! Z.to_nat i = Some g
                 /\ __getitem__ 0%nat i two_curves = Done g two_curves.
Proof.
  exact (getitem_in_and_past_range two_curves 0%nat
           (mkContainer CurveContainer [VGeom curve1; VGeom curve2] [] 0)
           eq_refl).
Defined.

(** C10. On a container of [n >= 1] elements a negative index [-k] with
    [1 <= k <= n] does not raise: it returns the element at position
    [n - k], so [-1] gives the last element. *)
Theorem getitem_negative_wraps (h : store) (self : ref) (c : Container) (k : Z) :
  h !! self = Some c ->
  1 <= k <= Z.of_nat (length (_geoms c)) ->
  exists g, _geoms c !! (length (_geoms c) - Z.to_nat k)%nat = Some g
            /\ __getitem__ self (- k) h = Done g h.
Proof.
  intros Hc Hk.
  destruct (lookup_lt_is_Some_2 (_geoms c) (length (_geoms c) - Z.to_nat k)%nat)
    as [g Hg]; [lia|].
  exists g. split; [done|].
  unfold __getitem__, bind, deref, ret. rewrite Hc.
  by rewrite list_getitem_negative, Hg.
Qed.

Lemma getitem_negative_wraps_witness :
  exists g, [VGeom curve1; VGeom curve2] !! (2 - Z.to_nat 1)%nat = Some g
            /\ __getitem__ 0%nat (- 1) two_curves = Done g two_curves.
Proof.
  apply (getitem_negative_wraps two_curves 0%nat
           (mkContainer CurveContainer [VGeom curve1; VGeom curve2] [] 0) 1
           eq_refl).
  simpl. lia.
Defined.

(** ** Insertion: what [add] does to the store *)

Lemma evolve_refl self h : evolve self [] h h.
Proof.
  split; [done| |]; intros; eexists; split_and!; eauto using app_nil_r.
Qed.

Lemma evolve_trans self l1 l2 h1 h2 h3 :
  evolve self l1 h1 h2 -> evolve self l2 h2 h3 -> evolve self (l1 ++ l2) h1 h3.
Proof.
  intros [L1 S1 O1] [L2 S2 O2]. split.
  - congruence.
  - intros c Hc. destruct (S1 c Hc) as (c1 & H1 & K1 & G1).
    destruct (S2 c1 H1) as (c2 & H2 & K2 & G2).
    exists c2. split_and!; [done|congruence|]. by rewrite G2, G1, app_assoc.
  - intros r c Hr Hc. destruct (O1 r c Hr Hc) as (c1 & H1 & K1 & G1 & C1).
    destruct (O2 r c1 Hr H1) as (c2 & H2 & K2 & G2 & C2).
    exists c2. split_and!; congruence.
Qed.

Lemma evolve_insert_self self l h c c' :
  h !! self = Some c ->
  __class__ c' = __class__ c -> _geoms c' = _geoms c ++ l ->
  evolve self l h (<[self := c']> h).
Proof.
  intros Hc K G. pose proof (lookup_lt_Some _ _ _ Hc). split.
  - apply length_insert.
  - intros c0 Hc0. exists c'. rewrite list_lookup_insert_eq by done.
    split_and!; congruence.
  - intros r c0 Hr Hc0. exists c0. by rewrite list_lookup_insert_ne.
Qed.

Lemma evolve_insert_other self r h c c' :
  r <> self -> h !! r = Some c ->
  __class__ c' = __class__ c -> _geoms c' = _geoms c ->
  _cache_evalpts c' = _cache_evalpts c ->
  evolve self [] h (<[r := c']> h).
Proof.
  intros Hr Hc K G C. pose proof (lookup_lt_Some _ _ _ Hc). split.
  - apply length_insert.
  - intros c0 Hc0. exists c0. rewrite list_lookup_insert_ne by done.
    by rewrite app_nil_r.
  - intros r0 c0 Hr0 Hc0. destruct (decide (r0 = r)) as [->|Hne].
    + exists c'. rewrite list_lookup_insert_eq by done.
      split_and!; congruence.
    + exists c0. by rewrite list_lookup_insert_ne.
Qed.

Lemma evolve_lookup_None self l h h' r :
  evolve self l h h' -> h !! r = None -> h' !! r = None.
Proof.
  intros [L _ _] Hr. apply lookup_ge_None. apply lookup_ge_None in Hr. lia.
Qed.

Lemma evolve_store_ok self l h h' :
  evolve self l h h' -> Forall is_spline l -> store_ok h -> store_ok h'.
Proof.
  intros [L S O] Hl Hok r c' Hc'.
  destruct (h !! r) as [c|] eqn:Hc.
  - destruct (decide (r = self)) as [->|Hr].
    + destruct (S c Hc) as (c1 & H1 & _ & G1).
      assert (c1 = c') as -> by congruence.
      rewrite G1. apply Forall_app. eauto.
    + destruct (O r c Hr Hc) as (c1 & H1 & _ & G1 & _).
      assert (c1 = c') as -> by congruence.
      rewrite G1. eauto.
  - apply lookup_ge_None in Hc. apply lookup_lt_Some in Hc'. lia.
Qed.

(** [scan] reads of the store only what [evolve] keeps. *)
Lemma scan_evolve self l h h' k v :
  is_Some (h !! self) -> evolve self l h h' -> scan h' self k v = scan h self k v.
Proof.
  intros [c0 Hself] Hev. revert v.
  fix IH 1. intros [g|items|r|]; simpl; try done.
  - induction items as [|x xs IHxs]; simpl; [done|].
    by rewrite IH, IHxs.
  - destruct (h !! r) as [c|] eqn:Hc.
    + destruct (decide (r = self)) as [->|Hr].
      * destruct (ev_self _ _ _ _ Hev c Hc) as (c' & -> & -> & _). done.
      * destruct (ev_other _ _ _ _ Hev r c Hr Hc) as (c' & -> & -> & -> & _). done.
    + by rewrite (evolve_lookup_None _ _ _ _ _ Hev Hc).
Qed.

Lemma post_refl self h : post self [] false h h.
Proof. split; [apply evolve_refl|done|done]. Qed.

Lemma post_trans self l1 l2 d1 d2 h1 h2 h3 :
  post self l1 d1 h1 h2 -> post self l2 d2 h2 h3 ->
  post self (l1 ++ l2) (d1 || d2) h1 h3.
Proof.
  intros [E1 C1 K1] [E2 C2 K2]. split.
  - eapply evolve_trans; eauto.
  - rewrite C2, C1. by destruct d1, d2.
  - intros [-> ->]%orb_false_elim. rewrite K2, K1; done.
Qed.

(** Unfolding equations of the methods on a valid reference. *)
Lemma reset_eq self h c :
  h !! self = Some c -> reset self h = Done tt (<[self := set_cache c []]> h).
Proof. intros Hc. unfold reset, update. by rewrite Hc. Qed.

Lemma iter_eq r h c :
  h !! r = Some c -> __iter__ r h = Done r (<[r := set_iter c 0]> h).
Proof. intros Hc. unfold __iter__, bind, update, ret. by rewrite Hc. Qed.

Lemma next_eq r h c :
  h !! r = Some c ->
  __next__ r h =
    match list_getitem (_geoms c) (_iter_index c) with
    | None => Raise StopIteration h
    | Some g => Done g (<[r := set_iter c (_iter_index c + 1)]> h)
    end.
Proof.
  intros Hc. unfold __next__, bind, deref. rewrite Hc.
  destruct (list_getitem _ _); [|done].
  unfold update, ret. by rewrite Hc.
Qed.

Lemma add_eq n self geom h c :
  h !! self = Some c ->
  add (S n) self geom h =
    match (if isinstance_container h (__class__ c) geom || isinstance_sequence geom
           then for_in n geom (add n self)
           else if isinstance_spline geom
           then update self (fun c => set_geoms c (_geoms c ++ [geom]))
           else raise GeomdlError) h with
    | Done _ h1 => reset self h1
    | Raise e h1 => Raise e h1
    | Timeout => Timeout
    end.
Proof. intros Hc. simpl. unfold bind, deref. by rewrite Hc. Qed.

(** A spline geometry is appended and the cache slot is cleared. *)
Lemma add_spline n self g h c :
  h !! self = Some c ->
  add (S n) self (VGeom g) h =
    Done tt (<[self := mkContainer (__class__ c) (_geoms c ++ [VGeom g]) []
                        (_iter_index c)]> h).
Proof.
  intros Hc. pose proof (lookup_lt_Some _ _ _ Hc).
  rewrite (add_eq _ _ _ _ _ Hc). simpl. unfold update. rewrite Hc.
  erewrite reset_eq by by apply list_lookup_insert_eq.
  by rewrite list_insert_insert_eq.
Qed.

Lemma post_reset self l h h1 :
  is_Some (h !! self) -> evolve self l h h1 ->
  exists h2, reset self h1 = Done tt h2 /\ post self l true h h2.
Proof.
  intros [c Hc] Hev. destruct (ev_self _ _ _ _ Hev c Hc) as (c1 & H1 & K1 & G1).
  pose proof (lookup_lt_Some _ _ _ H1).
  exists (<[self := set_cache c1 []]> h1). split; [by apply reset_eq|].
  split; [| |done].
  - rewrite <- (app_nil_r l). eapply evolve_trans; [done|].
    apply (evolve_insert_self _ _ _ c1); [done|done|]. simpl. by rewrite app_nil_r.
  - unfold cache_of. by rewrite list_lookup_insert_eq.
Qed.

(** The loop of [add] over another container of splines appends what is
    left of it from its cursor on, and never raises. *)
Lemma for_next_other n self r m : r <> self ->
  forall h cr, h !! r = Some cr -> is_Some (h !! self) ->
    Forall is_spline (_geoms cr) -> 0 <= _iter_index cr ->
    match for_next m r (add n self) h with
    | Timeout => True
    | Done _ h' => evolve self (drop (Z.to_nat (_iter_index cr)) (_geoms cr)) h h'
    | Raise _ _ => False
    end.
Proof.
  intros Hr. induction m as [|m IH]; intros h cr Hcr [cs Hcs] Hsp Hidx; [done|].
  simpl. rewrite (next_eq _ _ _ Hcr), list_getitem_nonneg by done.
  pose proof (lookup_lt_Some _ _ _ Hcr) as Hlr.
  pose proof (lookup_lt_Some _ _ _ Hcs) as Hls.
  destruct (_geoms cr !! Z.to_nat (_iter_index cr)) as [g|] eqn:Hg.
  - assert (is_spline g) as Hgs.
    { eapply Forall_lookup_1; eauto. }
    destruct g as [g| | |]; try done.
    unfold bind. destruct n as [|n]; [done|].
    set (h1 := <[r := set_iter cr (_iter_index cr + 1)]> h).
    assert (h1 !! self = Some cs) as Hcs1.
    { unfold h1. by rewrite list_lookup_insert_ne. }
    rewrite (add_spline _ _ _ _ _ Hcs1).
    set (h2 := <[self := _]> h1).
    assert (h2 !! r = Some (set_iter cr (_iter_index cr + 1))) as Hcr2.
    { unfold h2, h1. rewrite list_lookup_insert_ne by done.
      by rewrite list_lookup_insert_eq. }
    assert (is_Some (h2 !! self)) as Hs2.
    { unfold h2. rewrite list_lookup_insert_eq; [done|].
      unfold h1. by rewrite length_insert. }
    specialize (IH h2 _ Hcr2 Hs2 Hsp ltac:(simpl; lia)).
    destruct (for_next m r (add (S n) self) h2) as [[] h'| |]; [|done|done].
    simpl in IH.
    replace (Z.to_nat (_iter_index cr + 1)) with (S (Z.to_nat (_iter_index cr)))
      in IH by lia.
    rewrite (drop_S _ _ _ Hg).
    change (VGeom g :: ?l) with ([] ++ [VGeom g] ++ l).
    apply (evolve_trans self [] _ h h1 h').
    { by apply (evolve_insert_other self r h cr). }
    apply (evolve_trans self [VGeom g] _ h1 h2 h'); [|exact IH].
    by apply (evolve_insert_self self _ h1 cs).
  - apply lookup_ge_None in Hg. rewrite drop_ge by done. apply evolve_refl.
Qed.

(** The loop of [add] over the receiver itself never ends once the
    cursor stands on an element: every turn appends one more. *)
Lemma for_next_self_diverges n self m :
  forall h c, h !! self = Some c -> Forall is_spline (_geoms c) ->
    0 <= _iter_index c < Z.of_nat (length (_geoms c)) ->
    for_next m self (add n self) h = Timeout.
Proof.
  induction m as [|m IH]; intros h c Hc Hsp Hidx; [done|].
  simpl. rewrite (next_eq _ _ _ Hc), list_getitem_nonneg by lia.
  pose proof (lookup_lt_Some _ _ _ Hc) as Hl.
  destruct (lookup_lt_is_Some_2 (_geoms c) (Z.to_nat (_iter_index c)))
    as [g Hg]; [lia|].
  rewrite Hg.
  assert (is_spline g) as Hgs by (eapply Forall_lookup_1; eauto).
  destruct g as [g| | |]; try done.
  unfold bind. destruct n as [|n]; [done|].
  erewrite add_spline by by apply list_lookup_insert_eq.
  rewrite list_insert_insert_eq.
  eapply IH.
  - by apply list_lookup_insert_eq.
  - simpl. apply Forall_app. split; [done|]. by repeat constructor.
  - simpl. rewrite length_app. simpl. lia.
Qed.

Lemma scan_items_ext f g items :
  (forall v, f v = g v) -> scan_items f items = scan_items g items.
Proof.
  intros Hfg. induction items as [|x xs IH]; simpl; [done|].
  by rewrite Hfg, IH.
Qed.

Lemma for_each_sound n self :
  (forall v h c, h !! self = Some c -> store_ok h ->
     add_post true self (scan h self (__class__ c) v) h (add n self v h)) ->
  forall items h c, h !! self = Some c -> store_ok h ->
    add_post false self (scan_items (scan h self (__class__ c)) items) h
      (for_each items (add n self) h).
Proof.
  intros Hadd. induction items as [|x xs IH]; intros h c Hc Hok.
  { simpl. exists [], false. split_and!; [done|done|apply post_refl]. }
  simpl. unfold bind. specialize (Hadd x h c Hc Hok).
  destruct (add n self x h) as [[] h1|e h1|]; simpl in Hadd; [| |done].
  - destruct Hadd as (a & d & -> & Ha & Hp).
    destruct (ev_self _ _ _ _ (post_evolve _ _ _ _ _ Hp) c Hc) as (c1 & Hc1 & Hk1 & _).
    assert (store_ok h1) as Hok1.
    { eapply evolve_store_ok; [apply Hp|done|done]. }
    specialize (IH h1 c1 Hc1 Hok1). rewrite Hk1 in IH.
    rewrite (scan_items_ext (scan h1 self (__class__ c)) (scan h self (__class__ c)))
      in IH by (intros v; eapply scan_evolve; [by eexists|apply Hp]).
    destruct (for_each xs (add n self) h1) as [[] h2|e h2|]; simpl in *; [| |done].
    + destruct IH as (b & d2 & -> & Hb & Hp2).
      exists (a ++ b), true. split_and!; [done|by apply Forall_app|].
      by apply (post_trans self a b true (false || d2) h h1 h2).
    + destruct IH as (-> & b & d2 & -> & Hb & Hp2). split; [done|].
      exists (a ++ b), true. split_and!; [done|by apply Forall_app|].
      by apply (post_trans self a b true d2 h h1 h2).
  - destruct Hadd as (-> & a & d & -> & Ha & Hp). split; [done|].
    by exists a, d.
Qed.

(** Partial correctness of [add]: whatever fuel is given, if the call
    stops then the store it leaves is the one [scan] describes. *)
Lemma add_sound n : forall self v h c,
  h !! self = Some c -> store_ok h ->
  add_post true self (scan h self (__class__ c) v) h (add n self v h).
Proof.
  induction n as [|n IH]; intros self v h c Hc Hok; [done|].
  pose proof (lookup_lt_Some _ _ _ Hc) as Hl.
  destruct v as [g|items|r|].
  - rewrite (add_spline _ _ _ _ _ Hc). simpl.
    exists [VGeom g], false. split_and!; [done|by repeat constructor|].
    split; [| |done].
    + by apply (evolve_insert_self self _ h c).
    + unfold cache_of. by rewrite list_lookup_insert_eq.
  - rewrite (add_eq _ _ _ _ _ Hc). simpl.
    pose proof (for_each_sound n self (IH self) items h c Hc Hok) as Hloop.
    destruct (for_each items (add n self) h) as [[] h1|e h1|]; simpl in *; [|done|done].
    destruct Hloop as (l & d & -> & Hsp & Hp).
    destruct (post_reset self l h h1) as (h2 & -> & Hp2); [by eexists|apply Hp|].
    simpl. by exists l, d.
  - rewrite (add_eq _ _ _ _ _ Hc). simpl. rewrite orb_false_r.
    destruct (h !! r) as [cr|] eqn:Hcr; simpl.
    2:{ split; [done|]. exists [], false. split_and!; [done|done|apply post_refl]. }
    case_bool_decide as Hk.
    2:{ split; [done|]. exists [], false. split_and!; [done|done|apply post_refl]. }
    unfold bind. rewrite (iter_eq _ _ _ Hcr).
    pose proof (lookup_lt_Some _ _ _ Hcr) as Hlr.
    set (h1 := <[r := set_iter cr 0]> h).
    assert (h1 !! r = Some (set_iter cr 0)) as Hcr1.
    { unfold h1. by rewrite list_lookup_insert_eq. }
    destruct (decide (r = self)) as [->|Hr].
    + assert (cr = c) as -> by congruence.
      destruct (_geoms c) as [|g0 gs] eqn:Hg.
      * destruct n as [|n]; [done|]. simpl.
        rewrite (next_eq _ _ _ Hcr1). simpl. rewrite Hg. simpl.
        destruct (post_reset self [] h h1) as (h2 & -> & Hp2); [by eexists| |].
        { apply (evolve_insert_self self _ h c); [done|done|]. simpl.
          by rewrite app_nil_r. }
        simpl. by exists [], false.
      * rewrite (for_next_self_diverges n self n h1 _ Hcr1); [done| |].
        { simpl. eapply Hok; eauto. }
        { simpl. rewrite Hg. simpl. lia. }
    + assert (is_Some (h1 !! self)) as Hs1.
      { unfold h1. rewrite list_lookup_insert_ne by done. by eexists. }
      pose proof (for_next_other n self r n Hr h1 _ Hcr1 Hs1
                    ltac:(simpl; eapply Hok; eauto) ltac:(simpl; lia)) as Hloop.
      destruct (for_next n r (add n self) h1) as [[] h2| |]; [|done|done].
      simpl in Hloop. rewrite drop_0 in Hloop.
      destruct (post_reset self (_geoms cr) h h2) as (h3 & -> & Hp3); [by eexists| |].
      { change (_geoms cr) with ([] ++ _geoms cr).
        apply (evolve_trans self [] _ h h1 h2); [|done].
        by apply (evolve_insert_other self r h cr). }
      simpl. exists (_geoms cr), false. split_and!; [done|eapply Hok; eauto|done].
  - rewrite (add_eq _ _ _ _ _ Hc). simpl.
    split; [done|]. exists [], false. split_and!; [done|done|apply post_refl].
Qed.

(** [add] keeps stores well formed, also when it raises. *)
Lemma add_store_ok n self v h c :
  h !! self = Some c -> store_ok h ->
  match add n self v h with
  | Done _ h' | Raise _ h' => store_ok h'
  | Timeout => True
  end.
Proof.
  intros Hc Hok. pose proof (add_sound n self v h c Hc Hok) as H.
  destruct (add n self v h) as [[] h'|e h'|]; simpl in H; [| |done].
  - destruct H as (l & d & _ & Hl & Hp). eapply evolve_store_ok; [apply Hp|done|done].
  - destruct H as (_ & l & d & _ & Hl & Hp). eapply evolve_store_ok; [apply Hp|done|done].
Qed.

(** ** Insertion: termination *)

Lemma scan_insertable h self k v :
  insertable h self k v = true ->
  exists d, scan h self k v = (leaves h v, true, d).
Proof.
  revert v. fix IH 1. intros [g|items|r|]; simpl; try done.
  - by exists false.
  - induction items as [|x xs IHxs]; simpl; [by exists false|].
    intros [Hx Hxs]%andb_prop. destruct (IH x Hx) as [d ->].
    destruct (IHxs Hxs) as [d' ->]. by exists true.
  - intros [Hr Hc]%andb_prop. apply bool_decide_eq_true in Hr.
    unfold geoms_of. destruct (h !! r) as [c|]; [|done].
    rewrite Hc. rewrite decide_False by done. by exists false.
Qed.

Lemma insertable_evolve self l h h' k v :
  is_Some (h !! self) -> evolve self l h h' ->
  insertable h' self k v = insertable h self k v
  /\ (insertable h self k v = true ->
      leaves h' v = leaves h v /\ fuel_for h' v = fuel_for h v).
Proof.
  intros [c0 Hself] Hev. revert v.
  fix IH 1. intros [g|items|r|]; simpl; try done.
  - induction items as [|x xs IHxs]; simpl; [done|].
    destruct (IH x) as [-> Hx]. destruct IHxs as [-> Hxs]. split; [done|].
    intros [Hix Hixs]%andb_prop. destruct (Hx Hix) as [-> ->].
    destruct (Hxs Hixs) as [-> Hf]. split; [done|]. by injection Hf as ->.
  - unfold geoms_of. destruct (decide (r = self)) as [->|Hr].
    { rewrite !bool_decide_eq_false_2 by (intros ?; done). done. }
    destruct (h !! r) as [c|] eqn:Hc.
    + destruct (ev_other _ _ _ _ Hev r c Hr Hc) as (c' & -> & -> & -> & _). done.
    + by rewrite (evolve_lookup_None _ _ _ _ _ Hev Hc).
Qed.

(** The loop over another container ends within one turn more than it has
    elements left. *)
Lemma for_next_other_total n self r m : r <> self ->
  forall h cr, h !! r = Some cr -> is_Some (h !! self) ->
    Forall is_spline (_geoms cr) -> 0 <= _iter_index cr ->
    (length (_geoms cr) - Z.to_nat (_iter_index cr) < m)%nat ->
    exists h', for_next m r (add (S n) self) h = Done tt h'.
Proof.
  intros Hr. induction m as [|m IH]; intros h cr Hcr [cs Hcs] Hsp Hidx Hm; [lia|].
  cbn [for_next]. rewrite (next_eq _ _ _ Hcr), list_getitem_nonneg by done.
  pose proof (lookup_lt_Some _ _ _ Hcr) as Hlr.
  pose proof (lookup_lt_Some _ _ _ Hcs) as Hls.
  destruct (_geoms cr !! Z.to_nat (_iter_index cr)) as [g|] eqn:Hg; [|by eexists].
  assert (is_spline g) as Hgs by (eapply Forall_lookup_1; eauto).
  destruct g as [g| | |]; try done.
  unfold bind.
  erewrite add_spline by by rewrite list_lookup_insert_ne.
  apply lookup_lt_Some in Hg.
  eapply IH.
  - rewrite list_lookup_insert_ne by done. by apply list_lookup_insert_eq.
  - rewrite list_lookup_insert_eq; [done|]. by rewrite length_insert.
  - done.
  - simpl. lia.
  - simpl. lia.
Qed.

Lemma list_max_map_le {A} (f : A -> nat) (l : list A) (n : nat) :
  (list_max (map f l) <= n)%nat -> Forall (fun x => (f x <= n)%nat) l.
Proof.
  induction l as [|x xs IH]; simpl; [done|].
  intros H. constructor; [lia|]. apply IH. lia.
Qed.

Lemma forallb_pointwise {A} (f g : A -> bool) (l : list A) :
  (forall x, f x = g x) -> forallb f l = forallb g l.
Proof. intros Hfg. induction l as [|x xs IH]; simpl; [done|]. by rewrite Hfg, IH. Qed.

Lemma for_each_total n self :
  (forall v h c, h !! self = Some c -> store_ok h ->
     insertable h self (__class__ c) v = true -> (fuel_for h v <= n)%nat ->
     exists h', add n self v h = Done tt h') ->
  forall items h c, h !! self = Some c -> store_ok h ->
    forallb (insertable h self (__class__ c)) items = true ->
    Forall (fun x => (fuel_for h x <= n)%nat) items ->
    exists h', for_each items (add n self) h = Done tt h'.
Proof.
  intros Hadd. induction items as [|x xs IH]; intros h c Hc Hok Hins Hfuel.
  { by eexists. }
  simpl in *. apply andb_prop in Hins as [Hx Hxs].
  apply Forall_cons in Hfuel as [Hfx Hfxs].
  destruct (Hadd x h c Hc Hok Hx Hfx) as [h1 Hrun].
  unfold bind. rewrite Hrun.
  pose proof (add_sound n self x h c Hc Hok) as Hs. rewrite Hrun in Hs.
  destruct Hs as (l & d & _ & Hl & Hp).
  destruct (ev_self _ _ _ _ (post_evolve _ _ _ _ _ Hp) c Hc) as (c1 & Hc1 & Hk1 & _).
  assert (is_Some (h !! self)) as Hs by by eexists.
  apply (IH h1 c1 Hc1).
  - eapply evolve_store_ok; [apply Hp|done|done].
  - rewrite Hk1. rewrite <- Hxs. apply forallb_pointwise. intros v.
    by apply (insertable_evolve self l h h1 _ v Hs (post_evolve _ _ _ _ _ Hp)).
  - pose proof (proj1 (forallb_forall _ _) Hxs) as Hall.
    rewrite Forall_forall in Hfxs. apply Forall_forall. intros v Hv.
    destruct (insertable_evolve self l h h1 (__class__ c) v Hs
                (post_evolve _ _ _ _ _ Hp)) as [_ Heq].
    destruct Heq as [_ ->]; [apply Hall; by apply list_elem_of_In|by apply Hfxs].
Qed.

(** Total correctness of [add] on insertable arguments: any fuel from
    [fuel_for] on makes the call return. *)
Lemma add_total n : forall self v h c,
  h !! self = Some c -> store_ok h ->
  insertable h self (__class__ c) v = true -> (fuel_for h v <= n)%nat ->
  exists h', add n self v h = Done tt h'.
Proof.
  induction n as [|n IH]; intros self v h c Hc Hok Hins Hfuel.
  { destruct v; simpl in Hfuel; lia. }
  pose proof (lookup_lt_Some _ _ _ Hc) as Hl.
  destruct v as [g|items|r|]; simpl in Hins, Hfuel; [| | |done].
  - rewrite (add_spline _ _ _ _ _ Hc). by eexists.
  - rewrite (add_eq _ _ _ _ _ Hc). simpl.
    destruct (for_each_total n self (IH self) items h c Hc Hok Hins) as [h1 Hrun].
    { apply list_max_map_le. lia. }
    rewrite Hrun.
    pose proof (for_each_sound n self (fun v h c => add_sound n self v h c)
                  items h c Hc Hok) as Hs.
    rewrite Hrun in Hs. destruct Hs as (l & d & _ & _ & Hp).
    destruct (post_reset self l h h1) as (h2 & -> & _); [by eexists|apply Hp|].
    by eexists.
  - apply andb_prop in Hins as [Hr Hk]. apply bool_decide_eq_true in Hr.
    unfold geoms_of in Hfuel.
    rewrite (add_eq _ _ _ _ _ Hc). simpl. rewrite orb_false_r.
    destruct (h !! r) as [cr|] eqn:Hcr; [|done]. rewrite Hk. simpl.
    unfold bind. rewrite (iter_eq _ _ _ Hcr).
    pose proof (lookup_lt_Some _ _ _ Hcr) as Hlr.
    set (h1 := <[r := set_iter cr 0]> h).
    assert (h1 !! r = Some (set_iter cr 0)) as Hcr1.
    { unfold h1. by rewrite list_lookup_insert_eq. }
    assert (is_Some (h1 !! self)) as Hs1.
    { unfold h1. rewrite list_lookup_insert_ne by done. by eexists. }
    destruct n as [|n]; [lia|].
    destruct (for_next_other_total n self r (S n) Hr h1 _ Hcr1 Hs1) as [h2 Hrun].
    { simpl. eapply Hok; eauto. }
    { simpl. lia. }
    { simpl. lia. }
    rewrite Hrun.
    pose proof (for_next_other (S n) self r (S n) Hr h1 _ Hcr1 Hs1
                  ltac:(simpl; eapply Hok; eauto) ltac:(simpl; lia)) as Hloop.
    rewrite Hrun in Hloop.
    destruct Hs1 as [cs1 Hcs1].
    destruct (ev_self _ _ _ _ Hloop cs1 Hcs1) as (c2 & Hc2 & _).
    rewrite (reset_eq _ _ _ Hc2). by eexists.
Qed.

(** ** Insertion and the kind of the elements *)

(** C1, counterexample. A surface added to an empty curve container is
    not rejected: for any positive fuel the call returns with the surface
    as the only element, and no fuel makes it raise GeomdlError. *)
Lemma add_kind_counterexample :
  SplineGeometry.kind surface1 <> documented_kind CurveContainer
  /\ (forall n, add (S n) 0%nat (VGeom surface1) empty_curves
                = Done tt [mkContainer CurveContainer [VGeom surface1] [] 0])
  /\ (forall n h', add n 0%nat (VGeom surface1) empty_curves
                   <> Raise GeomdlError h').
Proof.
  split_and!; [done|done|]. intros [|n] h'; done.
Qed.

(** C1, amended. Whatever the class of the receiver and the kind of the
    geometry, adding a single spline geometry returns, appends it at the
    end and clears the cache slot; a single item is rejected with
    GeomdlError, the store being left as it was, exactly when it is neither
    a spline geometry, nor a sequence, nor a container of the receiver's
    class. *)
Theorem add_single_item (h : store) (self : ref) (c : Container) (n : nat) :
  h !! self = Some c ->
  (forall g,
     add (S n) self (VGeom g) h
     = Done tt (<[self := mkContainer (__class__ c) (_geoms c ++ [VGeom g]) []
                            (_iter_index c)]> h))
  /\ (forall v,
        isinstance_sequence v = false ->
        isinstance_container h (__class__ c) v = false ->
        (isinstance_spline v = false <-> add (S n) self v h = Raise GeomdlError h)).
Proof.
  intros Hc. split.
  - intros g. by apply add_spline.
  - intros v Hseq Hcont. rewrite (add_eq _ _ _ _ _ Hc), Hseq, Hcont. simpl.
    destruct (isinstance_spline v) eqn:Hsp; simpl.
    + split; [done|]. unfold update. rewrite Hc.
      by erewrite reset_eq by (apply list_lookup_insert_eq; by eapply lookup_lt_Some).
    + done.
Qed.

Lemma add_single_item_witness :
  (forall g,
     add 1 0%nat (VGeom g) empty_curves
     = Done tt (<[0%nat := mkContainer CurveContainer ([] ++ [VGeom g]) [] 0]>
                  empty_curves))
  /\ (forall v,
        isinstance_sequence v = false ->
        isinstance_container empty_curves CurveContainer v = false ->
        (isinstance_spline v = false
         <-> add 1 0%nat v empty_curves = Raise GeomdlError empty_curves)).
Proof.
  exact (add_single_item empty_curves 0%nat
           (mkContainer CurveContainer [] [] 0) 0%nat eq_refl).
Defined.

(** ** Containers of another class *)

(** C6. Handing a container of another class to [add] or to [+] raises
    GeomdlError, whatever the state of the two containers, and the store
    (so the receiver's elements and its cache slot) is left as it was. *)
Theorem add_other_class_rejected (h : store) (self r : ref) (c cr : Container) (n : nat) :
  h !! self = Some c -> h !! r = Some cr -> __class__ cr <> __class__ c ->
  add (S n) self (VCont r) h = Raise GeomdlError h
  /\ __add__ n self (VCont r) h = Raise GeomdlError h.
Proof.
  intros Hc Hcr Hk. split.
  - rewrite (add_eq _ _ _ _ _ Hc). simpl. rewrite Hcr.
    by rewrite bool_decide_eq_false_2.
  - unfold __add__, bind, deref. rewrite Hc. simpl. rewrite Hcr.
    by rewrite bool_decide_eq_false_2.
Qed.

Lemma add_other_class_rejected_witness :
  add 1 0%nat (VCont 1%nat) curves_and_surfaces
    = Raise GeomdlError curves_and_surfaces
  /\ __add__ 0 0%nat (VCont 1%nat) curves_and_surfaces
     = Raise GeomdlError curves_and_surfaces.
Proof.
  apply (add_other_class_rejected curves_and_surfaces 0%nat 1%nat
           (mkContainer CurveContainer [VGeom curve1] [[0; 0]; [1; 1]] 0)
           (mkContainer SurfaceContainer [VGeom surface1] [] 0) 0%nat);
    [reflexivity|reflexivity|discriminate].
Defined.

(** ** Insertions that fail *)

Lemma isinstance_container_insert h self c c' k v :
  h !! self = Some c -> __class__ c' = __class__ c ->
  isinstance_container (<[self := c']> h) k v = isinstance_container h k v.
Proof.
  intros Hc Hk. destruct v as [| |r|]; simpl; try done.
  destruct (decide (r = self)) as [->|Hr].
  - rewrite list_lookup_insert_eq by by eapply lookup_lt_Some.
    by rewrite Hc, Hk.
  - by rewrite list_lookup_insert_ne.
Qed.

Lemma add_rejected n self v h c :
  h !! self = Some c ->
  isinstance_sequence v = false -> isinstance_spline v = false ->
  isinstance_container h (__class__ c) v = false ->
  add (S n) self v h = Raise GeomdlError h.
Proof.
  intros Hc Hseq Hsp Hcont. by rewrite (add_eq _ _ _ _ _ Hc), Hseq, Hcont, Hsp.
Qed.

(** A loop over some spline geometries followed by a rejected item: the
    geometries are appended one by one, then the loop raises. *)
Lemma for_each_valid_then_rejected n self bad rest :
  isinstance_sequence bad = false -> isinstance_spline bad = false ->
  forall gs h c, h !! self = Some c ->
    isinstance_container h (__class__ c) bad = false ->
    exists h',
      for_each (map VGeom gs ++ bad :: rest) (add (S n) self) h
        = Raise GeomdlError h'
      /\ geoms_of h' self = _geoms c ++ map VGeom gs
      /\ cache_of h' self = match gs with [] => _cache_evalpts c | _ => [] end.
Proof.
  intros Hseq Hsp. induction gs as [|g gs IH]; intros h c Hc Hcont.
  - exists h. cbn [map app for_each]. unfold bind.
    rewrite (add_rejected _ _ _ _ _ Hc Hseq Hsp Hcont).
    unfold geoms_of, cache_of. rewrite Hc. by rewrite app_nil_r.
  - cbn [map app for_each]. unfold bind. rewrite (add_spline _ _ _ _ _ Hc).
    pose proof (lookup_lt_Some _ _ _ Hc) as Hl.
    set (c1 := mkContainer _ _ _ _). 
    destruct (IH (<[self := c1]> h) c1) as (h' & -> & Hg & Hca).
    { by apply list_lookup_insert_eq. }
    { by rewrite (isinstance_container_insert _ _ c). }
    exists h'. split_and!; [done| |].
    + rewrite Hg. simpl. by rewrite <- app_assoc.
    + rewrite Hca. by destruct gs.
Qed.

(** C2, counterexample. Adding the list [[curve2, object]] to a container
    that holds [curve1] and a populated cache raises GeomdlError, yet
    [curve2] has been appended and the cache slot cleared. *)
Lemma add_failure_counterexample :
  exists h',
    add 2 0%nat (VSeq [VGeom curve2; VObject]) cached_curve = Raise GeomdlError h'
    /\ geoms_of h' 0%nat = [VGeom curve1; VGeom curve2]
    /\ geoms_of h' 0%nat <> geoms_of cached_curve 0%nat
    /\ cache_of h' 0%nat = []
    /\ cache_of h' 0%nat <> cache_of cached_curve 0%nat.
Proof.
  exists [mkContainer CurveContainer [VGeom curve1; VGeom curve2] [] 0].
  split_and!; done.
Qed.

(** C2, amended. When [add] raises, the error is GeomdlError; the elements
    held before are still there, in order, followed by the leaf geometries
    that [scan] accepts before the offending item; the cache slot is as
    before if no nested call to [add] had returned, and cleared otherwise;
    and if the argument itself is the offending item (it is not a
    sequence) the store has not changed at all. In particular a sequence of
    spline geometries followed by a rejected item does raise, leaves those
    geometries appended, and clears the cache slot unless there was none. *)
Theorem add_failure_effect (h : store) (self : ref) (c : Container) :
  h !! self = Some c -> store_ok h ->
  (forall n v e h', add n self v h = Raise e h' ->
     e = GeomdlError
     /\ (exists l d, scan h self (__class__ c) v = (l, false, d)
           /\ Forall is_spline l
           /\ geoms_of h' self = _geoms c ++ l
           /\ cache_of h' self = (if d then [] else _cache_evalpts c)
           /\ (d = false -> h' = h))
     /\ (isinstance_sequence v = false -> h' = h))
  /\ (forall n gs bad rest,
        isinstance_sequence bad = false -> isinstance_spline bad = false ->
        isinstance_container h (__class__ c) bad = false ->
        exists h',
          add (S (S n)) self (VSeq (map VGeom gs ++ bad :: rest)) h
            = Raise GeomdlError h'
          /\ geoms_of h' self = _geoms c ++ map VGeom gs
          /\ cache_of h' self
             = match gs with [] => _cache_evalpts c | _ => [] end).
Proof.
  intros Hc Hok. split.
  - intros n v e h' Hrun.
    pose proof (add_sound n self v h c Hc Hok) as Hs. rewrite Hrun in Hs.
    destruct Hs as (-> & l & d & Hscan & Hl & [Hev Hcache Hclean]).
    split; [done|].
    destruct (ev_self _ _ _ _ Hev c Hc) as (c' & Hc' & _ & Hg).
    split.
    + exists l, d. split_and!; try done.
      * unfold geoms_of. by rewrite Hc'.
      * rewrite Hcache. unfold cache_of. by rewrite Hc.
    + intros Hseq. apply Hclean.
      destruct v as [g|items|r|]; simpl in Hscan, Hseq; try done.
      * destruct (h !! r) as [cr|]; [|congruence].
        destruct (bool_decide _); congruence.
      * congruence.
  - intros n gs bad rest Hseq Hsp Hcont.
    destruct (for_each_valid_then_rejected n self bad rest Hseq Hsp gs h c Hc Hcont)
      as (h' & Hrun & Hg & Hca).
    exists h'. split; [|done].
    rewrite (add_eq _ _ _ _ _ Hc). cbn [isinstance_container isinstance_sequence orb for_in].
    by rewrite Hrun.
Qed.

Lemma add_failure_effect_witness :
  exists h',
    add 2 0%nat (VSeq (map VGeom [curve2] ++ VObject :: [])) cached_curve
      = Raise GeomdlError h'
    /\ geoms_of h' 0%nat = [VGeom curve1] ++ map VGeom [curve2]
    /\ cache_of h' 0%nat = [].
Proof.
  assert (store_ok cached_curve) as Hok.
  { intros [|r] c0 Hc0; [|done]. injection Hc0 as <-. by repeat constructor. }
  exact (proj2 (add_failure_effect cached_curve 0%nat
                  (mkContainer CurveContainer [VGeom curve1] [[0; 0]; [1; 1]] 0)
                  eq_refl Hok)
           0%nat [curve2] VObject [] eq_refl eq_refl eq_refl).
Defined.

(** ** Flattening *)

Lemma curves_pair_ok : store_ok curves_pair.
Proof.
  intros [|[|r]] c0 Hc0; [| |done]; injection Hc0 as <-; by repeat constructor.
Defined.

(** A run of insertions that returns leaves what [scan] reads. *)
Lemma insertions_sound n self args h c h' :
  h !! self = Some c -> store_ok h ->
  for_each args (add n self) h = Done tt h' ->
  store_ok h'
  /\ exists l d c',
       scan_items (scan h self (__class__ c)) args = (l, true, d)
       /\ h' !! self = Some c' /\ __class__ c' = __class__ c
       /\ _geoms c' = _geoms c ++ l.
Proof.
  intros Hc Hok Hrun.
  pose proof (for_each_sound n self (fun v h c => add_sound n self v h c)
                args h c Hc Hok) as Hs.
  rewrite Hrun in Hs. destruct Hs as (l & d & Hscan & Hl & Hp).
  split; [eapply evolve_store_ok; [apply Hp|done|done]|].
  destruct (ev_self _ _ _ _ (post_evolve _ _ _ _ _ Hp) c Hc) as (c' & Hc' & Hk & Hg).
  by exists l, d, c'.
Qed.

(** A run of insertions of insertable arguments returns, and leaves the
    leaves of the arguments after the former elements. *)
Lemma insertions_total n self args h c :
  h !! self = Some c -> store_ok h ->
  forallb (insertable h self (__class__ c)) args = true ->
  (list_max (map (fuel_for h) args) <= n)%nat ->
  exists h' c',
    for_each args (add n self) h = Done tt h'
    /\ h' !! self = Some c' /\ __class__ c' = __class__ c
    /\ _geoms c' = _geoms c ++ flat_map (leaves h) args
    /\ store_ok h'.
Proof.
  intros Hc Hok Hins Hn.
  destruct (for_each_total n self (fun v h c => add_total n self v h c)
              args h c Hc Hok Hins) as [h' Hrun].
  { by apply list_max_map_le. }
  destruct (insertions_sound n self args h c h' Hc Hok Hrun)
    as (Hok' & l & d & c' & Hs & Hc' & Hk & Hg).
  destruct (scan_insertable h self (__class__ c) (VSeq args) Hins) as [d' Hs'].
  simpl in Hs'. rewrite Hs' in Hs. injection Hs as <- <-.
  by exists h', c'.
Qed.

(** C3. A sequence of insertions [self.add(arg)] for [arg] in [args], each
    a spline geometry, another container of the receiver's class or a
    sequence of such arguments, nested at will, returns for any fuel from
    some bound on; afterwards the elements are the former ones followed by
    the leaves of the arguments, flattened in order, [len] is the former
    length plus the number of leaves, and every element of every container
    is a spline geometry. More generally whenever such a run returns, on
    any arguments at all, the elements are the former ones followed by
    what [scan] accepts, and they are all spline geometries. *)
Theorem add_flattens (h : store) (self : ref) (c : Container) (args : list value) :
  h !! self = Some c -> store_ok h ->
  (forall n h', for_each args (add n self) h = Done tt h' ->
     store_ok h'
     /\ exists l d, scan_items (scan h self (__class__ c)) args = (l, true, d)
                    /\ geoms_of h' self = _geoms c ++ l)
  /\ (forallb (insertable h self (__class__ c)) args = true ->
      exists fuel, forall n, (fuel <= n)%nat ->
        exists h' c',
          for_each args (add n self) h = Done tt h'
          /\ h' !! self = Some c'
          /\ _geoms c' = _geoms c ++ flat_map (leaves h) args
          /\ __len__ self h'
             = Done (Z.of_nat (length (_geoms c))
                     + Z.of_nat (length (flat_map (leaves h) args))) h'
          /\ Forall is_spline (_geoms c')
          /\ store_ok h').
Proof.
  intros Hc Hok. split.
  - intros n h' Hrun.
    destruct (insertions_sound n self args h c h' Hc Hok Hrun)
      as (Hok' & l & d & c' & Hs & Hc' & _ & Hg).
    split; [done|]. exists l, d. split; [done|]. unfold geoms_of. by rewrite Hc'.
  - intros Hins. exists (list_max (map (fuel_for h) args)). intros n Hn.
    destruct (insertions_total n self args h c Hc Hok Hins Hn)
      as (h' & c' & Hrun & Hc' & _ & Hg & Hok').
    exists h', c'. split_and!; try done.
    + unfold __len__, bind, deref, ret. rewrite Hc', Hg, length_app. f_equal. lia.
    + by eapply Hok'.
Qed.

Lemma add_flattens_witness :
  exists fuel, forall n, (fuel <= n)%nat ->
    exists h' c',
      for_each [VGeom curve2; VSeq [VCont 1%nat; VSeq [VGeom surface1]]]
        (add n 0%nat) curves_pair = Done tt h'
      /\ h' !! 0%nat = Some c'
      /\ _geoms c'
         = [VGeom curve1]
           ++ flat_map (leaves curves_pair)
                [VGeom curve2; VSeq [VCont 1%nat; VSeq [VGeom surface1]]]
      /\ __len__ 0%nat h'
         = Done (Z.of_nat (length [VGeom curve1])
                 + Z.of_nat (length (flat_map (leaves curves_pair)
                      [VGeom curve2; VSeq [VCont 1%nat; VSeq [VGeom surface1]]]))) h'
      /\ Forall is_spline (_geoms c')
      /\ store_ok h'.
Proof.
  exact (proj2 (add_flattens curves_pair 0%nat
                  (mkContainer CurveContainer [VGeom curve1] [] 0)
                  [VGeom curve2; VSeq [VCont 1%nat; VSeq [VGeom surface1]]]
                  eq_refl curves_pair_ok) eq_refl).
Defined.

(** A container built by [__init__] holds the leaves of its arguments,
    and the store is still well formed: every store a program reaches from
    well-formed ones through [__init__] and [add] is well formed. *)
Lemma init_flattens (h : store) (k : ContainerClass) (args : list value) :
  store_ok h ->
  let self := length h in
  let h0 := h ++ [mkContainer k [] [] 0] in
  forallb (insertable h0 self k) args = true ->
  exists fuel, forall n, (fuel <= n)%nat ->
    exists h' c',
      __init__ n k args h = Done self h'
      /\ h' !! self = Some c' /\ __class__ c' = k
      /\ _geoms c' = flat_map (leaves h0) args
      /\ store_ok h'.
Proof.
  intros Hok self h0 Hins.
  assert (h0 !! self = Some (mkContainer k [] [] 0)) as Hself.
  { unfold h0, self. rewrite lookup_app_r by done. by rewrite Nat.sub_diag. }
  assert (store_ok h0) as Hok0.
  { intros r c Hc. destruct (decide (r < length h)%nat) as [Hlt|Hge].
    - unfold h0 in Hc. rewrite lookup_app_l in Hc by done. by eapply Hok.
    - unfold h0 in Hc. rewrite lookup_app_r in Hc by lia.
      destruct (r - length h)%nat; [|done]. by injection Hc as <-. }
  exists (list_max (map (fuel_for h0) args)). intros n Hn.
  destruct (insertions_total n self args h0 _ Hself Hok0 Hins Hn)
    as (h' & c' & Hrun & Hc' & Hk & Hg & Hok').
  exists h', c'. split_and!; try done.
  unfold __init__, bind, alloc. fold self h0. by rewrite Hrun.
Qed.

(** ** Merging *)

(** C5. For two distinct containers [a] and [b] of one class, [a + b]
    returns for any fuel from some bound on; what it returns is the
    reference [a] itself, no object having been created; [a] then holds its
    former elements followed by those of [b], so its length is the sum of
    the two lengths, and the elements of [b] are as before. *)
Theorem merge_in_place (h : store) (a b : ref) (ca cb : Container) :
  a <> b -> h !! a = Some ca -> h !! b = Some cb ->
  __class__ cb = __class__ ca -> store_ok h ->
  exists fuel, forall n, (fuel <= n)%nat ->
    exists h' ca' cb',
      __add__ n a (VCont b) h = Done a h'
      /\ length h' = length h
      /\ h' !! a = Some ca' /\ h' !! b = Some cb'
      /\ _geoms ca' = _geoms ca ++ _geoms cb
      /\ __len__ a h'
         = Done (Z.of_nat (length (_geoms ca)) + Z.of_nat (length (_geoms cb))) h'
      /\ _geoms cb' = _geoms cb
      /\ __class__ ca' = __class__ ca /\ __class__ cb' = __class__ cb.
Proof.
  intros Hab Ha Hb Hk Hok. exists (fuel_for h (VCont b)). intros n Hn.
  assert (insertable h a (__class__ ca) (VCont b) = true) as Hins.
  { simpl. rewrite Hb, Hk. rewrite !bool_decide_eq_true_2; done. }
  destruct (add_total n a (VCont b) h ca Ha Hok Hins Hn) as [h' Hrun].
  pose proof (add_sound n a (VCont b) h ca Ha Hok) as Hs. rewrite Hrun in Hs.
  destruct Hs as (l & d & Hscan & _ & [Hev _ _]).
  simpl in Hscan. rewrite Hb, Hk in Hscan.
  rewrite bool_decide_eq_true_2, decide_False in Hscan by done.
  injection Hscan as <- <-.
  destruct (ev_self _ _ _ _ Hev ca Ha) as (ca' & Ha' & Hka & Hga).
  destruct (ev_other _ _ _ _ Hev b cb ltac:(done) Hb) as (cb' & Hb' & Hkb & Hgb & _).
  exists h', ca', cb'. split_and!; try done.
  - unfold __add__, bind, deref. rewrite Ha. simpl. rewrite Hb, Hk.
    rewrite bool_decide_eq_true_2 by done. simpl. by rewrite Hrun.
  - apply Hev.
  - unfold __len__, bind, deref, ret. rewrite Ha', Hga, length_app. f_equal. lia.
Qed.

Lemma merge_in_place_witness :
  exists fuel, forall n, (fuel <= n)%nat ->
    exists h' ca' cb',
      __add__ n 0%nat (VCont 1%nat) curves_pair = Done 0%nat h'
      /\ length h' = length curves_pair
      /\ h' !! 0%nat = Some ca' /\ h' !! 1%nat = Some cb'
      /\ _geoms ca' = [VGeom curve1] ++ [VGeom curve2; VGeom blank1]
      /\ __len__ 0%nat h'
         = Done (Z.of_nat (length [VGeom curve1])
                 + Z.of_nat (length [VGeom curve2; VGeom blank1])) h'
      /\ _geoms cb' = [VGeom curve2; VGeom blank1]
      /\ __class__ ca' = CurveContainer /\ __class__ cb' = CurveContainer.
Proof.
  apply (merge_in_place curves_pair 0%nat 1%nat
           (mkContainer CurveContainer [VGeom curve1] [] 0)
           (mkContainer CurveContainer [VGeom curve2; VGeom blank1] [] 0));
    [discriminate|reflexivity|reflexivity|reflexivity|exact curves_pair_ok].
Defined.

(** A container merged with itself, once it holds an element, never comes
    back: the loop appends to the list it is walking. [merge_in_place] is
    about two containers. *)
Lemma merge_with_itself_diverges (h : store) (a : ref) (c : Container) (n : nat) :
  h !! a = Some c -> Forall is_spline (_geoms c) -> _geoms c <> [] ->
  __add__ n a (VCont a) h = Timeout.
Proof.
  intros Ha Hsp Hne. unfold __add__, bind, deref. rewrite Ha. simpl. rewrite Ha.
  rewrite bool_decide_eq_true_2 by done. simpl.
  destruct n as [|n]; [done|].
  rewrite (add_eq _ _ _ _ _ Ha). simpl. rewrite Ha.
  rewrite bool_decide_eq_true_2 by done. simpl.
  unfold bind. rewrite (iter_eq _ _ _ Ha).
  rewrite (for_next_self_diverges n a n _ (set_iter c 0)); [done| |done|].
  - apply list_lookup_insert_eq. by eapply lookup_lt_Some.
  - simpl. destruct (_geoms c); [done|]. simpl. lia.
Qed.

(** ** Iteration *)

Lemma set_iter_same c : set_iter c (_iter_index c) = c.
Proof. by destruct c. Qed.

Lemma set_cache_same c : set_cache c (_cache_evalpts c) = c.
Proof. by destruct c. Qed.

(** A traversal gathers what is left from the cursor on and leaves the
    cursor at the end. *)
Lemma gather_next_eq self m :
  forall h c, h !! self = Some c ->
    0 <= _iter_index c <= Z.of_nat (length (_geoms c)) ->
    (length (_geoms c) - Z.to_nat (_iter_index c) < m)%nat ->
    gather_next m self h
    = Done (drop (Z.to_nat (_iter_index c)) (_geoms c))
        (<[self := set_iter c (Z.of_nat (length (_geoms c)))]> h).
Proof.
  induction m as [|m IH]; intros h c Hc Hidx Hm; [lia|].
  cbn [gather_next]. rewrite (next_eq _ _ _ Hc), list_getitem_nonneg by lia.
  pose proof (lookup_lt_Some _ _ _ Hc) as Hl.
  destruct (_geoms c !! Z.to_nat (_iter_index c)) as [g|] eqn:Hg.
  - pose proof (lookup_lt_Some _ _ _ Hg) as Hlg.
    unfold bind.
    rewrite (IH _ (set_iter c (_iter_index c + 1)));
      [|by apply list_lookup_insert_eq|simpl; lia|simpl; lia].
    unfold ret. simpl. rewrite list_insert_insert_eq.
    replace (Z.to_nat (_iter_index c + 1)) with (S (Z.to_nat (_iter_index c))) by lia.
    by rewrite <- (drop_S _ _ _ Hg).
  - apply lookup_ge_None in Hg. rewrite drop_ge by done.
    replace (Z.of_nat (length (_geoms c))) with (_iter_index c) by lia.
    by rewrite set_iter_same, list_insert_id.
Qed.

(** C8. A full forward traversal returns, for any fuel above the number
    of elements, the elements in order; the reverse traversal returns them
    from the last to the first; each sequence is the reverse of the other.
    The forward traversal moves the cursor of the container and nothing
    else, the reverse traversal leaves the store as it is: elements and
    cache slot are what they were. *)
Theorem iteration_forward_reverse (h : store) (self : ref) (c : Container) :
  h !! self = Some c ->
  exists fuel, forall n, (fuel <= n)%nat ->
    exists fwd bwd h',
      iterate n self h = Done fwd h'
      /\ __reversed__ self h = Done bwd h
      /\ __reversed__ self h' = Done bwd h'
      /\ fwd = _geoms c /\ bwd = rev fwd /\ fwd = rev bwd
      /\ h' = <[self := set_iter c (Z.of_nat (length (_geoms c)))]> h
      /\ geoms_of h' self = _geoms c
      /\ cache_of h' self = _cache_evalpts c.
Proof.
  intros Hc. pose proof (lookup_lt_Some _ _ _ Hc) as Hl.
  exists (S (length (_geoms c))). intros n Hn.
  exists (_geoms c), (rev (_geoms c)),
    (<[self := set_iter c (Z.of_nat (length (_geoms c)))]> h).
  split_and!; try done.
  - unfold iterate, bind. rewrite (iter_eq _ _ _ Hc).
    rewrite (gather_next_eq self n _ (set_iter c 0));
      [|by apply list_lookup_insert_eq|simpl; lia|simpl; lia].
    simpl. by rewrite list_insert_insert_eq.
  - unfold __reversed__, bind, deref. by rewrite Hc.
  - unfold __reversed__, bind, deref. by rewrite list_lookup_insert_eq.
  - by rewrite rev_involutive.
  - unfold geoms_of. by rewrite list_lookup_insert_eq.
  - unfold cache_of. by rewrite list_lookup_insert_eq.
Qed.

Lemma iteration_forward_reverse_witness :
  exists fuel, forall n, (fuel <= n)%nat ->
    exists fwd bwd h',
      iterate n 1%nat curves_pair = Done fwd h'
      /\ __reversed__ 1%nat curves_pair = Done bwd curves_pair
      /\ __reversed__ 1%nat h' = Done bwd h'
      /\ fwd = [VGeom curve2; VGeom blank1] /\ bwd = rev fwd /\ fwd = rev bwd
      /\ h' = <[1%nat := set_iter (mkContainer CurveContainer
                                     [VGeom curve2; VGeom blank1] [] 0)
                           (Z.of_nat (length [VGeom curve2; VGeom blank1]))]>
                curves_pair
      /\ geoms_of h' 1%nat = [VGeom curve2; VGeom blank1]
      /\ cache_of h' 1%nat = [].
Proof.
  exact (iteration_forward_reverse curves_pair 1%nat
           (mkContainer CurveContainer [VGeom curve2; VGeom blank1] [] 0) eq_refl).
Defined.

(** ** Evaluated points *)

Lemma set_cache_twice c l1 l2 : set_cache (set_cache c l1) l2 = set_cache c l2.
Proof. done. Qed.

(** The loop of [evalpts] extends the cache slot by the points of every
    element, in element order. *)
Lemma evalpts_loop n self :
  forall gs h c, h !! self = Some c -> Forall is_spline gs ->
    for_each gs (fun g =>
      let* pts := match g with
                  | VGeom sg => ret (SplineGeometry.evalpts sg)
                  | VCont r => evalpts n r
                  | _ => raise AttributeError
                  end in
      update self (fun c => set_cache c (_cache_evalpts c ++ pts))) h
    = Done tt (<[self := set_cache c (_cache_evalpts c ++ flat_map elem_evalpts gs)]> h).
Proof.
  induction gs as [|g gs IH]; intros h c Hc Hsp.
  - simpl. unfold ret. by rewrite app_nil_r, set_cache_same, list_insert_id.
  - apply Forall_cons in Hsp as [Hg Hgs]. destruct g as [sg| | |]; try done.
    pose proof (lookup_lt_Some _ _ _ Hc) as Hl.
    cbn [for_each]. unfold bind at 1 2. unfold ret at 1. unfold update at 1.
    rewrite Hc.
    rewrite (IH _ (set_cache c (_cache_evalpts c ++ SplineGeometry.evalpts sg)));
      [|by apply list_lookup_insert_eq|done].
    rewrite list_insert_insert_eq, set_cache_twice. simpl.
    by rewrite <- app_assoc.
Qed.

(** The two branches of [evalpts]. On a hit no element is read. *)
Lemma evalpts_hit n self h c :
  h !! self = Some c -> cache_hit c = true ->
  evalpts (S n) self h = Done (_cache_evalpts c) h.
Proof.
  intros Hc Hhit. cbn [evalpts]. unfold bind, deref. rewrite Hc, Hhit.
  unfold ret. by rewrite Hc.
Qed.

Lemma evalpts_miss n self h c :
  h !! self = Some c -> cache_hit c = false -> Forall is_spline (_geoms c) ->
  evalpts (S n) self h
  = Done (flat_map elem_evalpts (_geoms c))
      (<[self := set_cache c (flat_map elem_evalpts (_geoms c))]> h).
Proof.
  intros Hc Hmiss Hsp. pose proof (lookup_lt_Some _ _ _ Hc) as Hl.
  cbn [evalpts]. unfold bind at 1 2, deref at 1. rewrite Hc, Hmiss.
  rewrite (evalpts_loop n self _ h c Hc Hsp).
  unfold bind, deref, ret. rewrite list_lookup_insert_eq by done.
  unfold cache_hit in Hmiss. destruct (_cache_evalpts c); done.
Qed.

(** C4, counterexample. A container whose only element has no evaluated
    point: the first call of [evalpts] returns the empty list and leaves
    the cache slot empty, so the second call is not a cache hit: it walks
    the elements again. The same holds of a container with no element. *)
Lemma evalpts_hit_counterexample :
  (evalpts 1 0%nat blank_only = Done [] blank_only
   /\ exists c1, blank_only !! 0%nat = Some c1
                 /\ _geoms c1 = [VGeom blank1] /\ cache_hit c1 = false)
  /\ (evalpts 1 0%nat empty_curves = Done [] empty_curves
      /\ exists c1, empty_curves !! 0%nat = Some c1 /\ cache_hit c1 = false).
Proof. split; (split; [done|]); by eexists. Qed.

(** C4, amended. Two calls of [evalpts] in a row return the same sequence,
    and the second one leaves the store as the first one left it; the
    second call is a cache hit when that sequence is not empty, and is not
    when it is empty. On a cleared cache slot the sequence is the
    concatenation of the evaluated points of the elements, in element
    order, and so is the sequence returned after any call of [add] that
    returned. *)
Theorem evalpts_cached (h : store) (self : ref) (c : Container) (n : nat) :
  h !! self = Some c -> store_ok h ->
  (exists pts h1 c1,
     evalpts (S n) self h = Done pts h1
     /\ evalpts (S n) self h1 = Done pts h1
     /\ h1 !! self = Some c1
     /\ _geoms c1 = _geoms c
     /\ (cache_hit c1 = true <-> pts <> [])
     /\ (_cache_evalpts c = [] -> pts = flat_map elem_evalpts (_geoms c)))
  /\ (forall m v h', add m self v h = Done tt h' ->
        cache_of h' self = []
        /\ exists h'',
             evalpts (S n) self h'
             = Done (flat_map elem_evalpts (geoms_of h' self)) h''
             /\ geoms_of h'' self = geoms_of h' self).
Proof.
  intros Hc Hok. pose proof (lookup_lt_Some _ _ _ Hc) as Hl.
  pose proof (Hok _ _ Hc) as Hsp. split.
  - destruct (cache_hit c) eqn:Hhit.
    + exists (_cache_evalpts c), h, c.
      rewrite (evalpts_hit _ _ _ _ Hc Hhit). split_and!; try done.
      * split; [|done]. intros _ Hnil. unfold cache_hit in Hhit.
        by rewrite Hnil in Hhit.
      * intros Hnil. unfold cache_hit in Hhit. by rewrite Hnil in Hhit.
    + set (pts := flat_map elem_evalpts (_geoms c)).
      set (c1 := set_cache c pts).
      assert (<[self := c1]> h !! self = Some c1) as Hc1
        by by apply list_lookup_insert_eq.
      exists pts, (<[self := c1]> h), c1.
      rewrite (evalpts_miss _ _ _ _ Hc Hhit Hsp). fold pts c1.
      split_and!; try done.
      * destruct (cache_hit c1) eqn:Hhit1.
        { by rewrite (evalpts_hit _ _ _ _ Hc1 Hhit1). }
        rewrite (evalpts_miss _ _ _ _ Hc1 Hhit1 Hsp).
        by rewrite list_insert_insert_eq.
      * unfold cache_hit. simpl. by destruct pts.
  - intros m v h' Hrun.
    pose proof (add_sound m self v h c Hc Hok) as Hs. rewrite Hrun in Hs.
    destruct Hs as (l & d & _ & Hl' & [Hev Hcache _]).
    destruct (ev_self _ _ _ _ Hev c Hc) as (c' & Hc' & _ & Hg).
    pose proof (lookup_lt_Some _ _ _ Hc') as Hl2.
    assert (cache_hit c' = false) as Hmiss.
    { unfold cache_of in Hcache. rewrite Hc' in Hcache. simpl in Hcache.
      unfold cache_hit. by rewrite Hcache. }
    assert (Forall is_spline (_geoms c')) as Hsp'.
    { rewrite Hg. by apply Forall_app. }
    split; [done|].
    eexists. rewrite (evalpts_miss _ _ _ _ Hc' Hmiss Hsp').
    unfold geoms_of. rewrite Hc', list_lookup_insert_eq by done. done.
Qed.

Lemma evalpts_cached_witness :
  (exists pts h1 c1,
     evalpts 1 0%nat curves_pair = Done pts h1
     /\ evalpts 1 0%nat h1 = Done pts h1
     /\ h1 !! 0%nat = Some c1
     /\ _geoms c1 = [VGeom curve1]
     /\ (cache_hit c1 = true <-> pts <> [])
     /\ (@nil point = [] -> pts = flat_map elem_evalpts [VGeom curve1]))
  /\ (forall m v h', add m 0%nat v curves_pair = Done tt h' ->
        cache_of h' 0%nat = []
        /\ exists h'',
             evalpts 1 0%nat h'
             = Done (flat_map elem_evalpts (geoms_of h' 0%nat)) h''
             /\ geoms_of h'' 0%nat = geoms_of h' 0%nat).
Proof.
  exact (evalpts_cached curves_pair 0%nat
           (mkContainer CurveContainer [VGeom curve1] [] 0) 0%nat
           eq_refl curves_pair_ok).
Defined.

(** ** Bounding boxes *)

Lemma point_min_absorb (a lo hi : point) :
  Forall2 Z.le lo hi -> point_min (point_min a lo) hi = point_min a lo.
Proof.
  intros Hle. revert a. unfold point_min.
  induction Hle as [|l u lo hi Hlu _ IH]; intros [|x a]; simpl; try done.
  rewrite IH. f_equal. lia.
Qed.

Lemma point_max_absorb (a lo hi : point) :
  Forall2 Z.le lo hi -> point_max (point_max a lo) hi = point_max a hi.
Proof.
  intros Hle. revert a. unfold point_max.
  induction Hle as [|l u lo hi Hlu _ IH]; intros [|x a]; simpl; try done.
  rewrite IH. f_equal. lia.
Qed.

Lemma point_min_le (lo hi : point) : Forall2 Z.le lo hi -> point_min lo hi = lo.
Proof.
  unfold point_min. induction 1 as [|l u lo hi Hlu _ IH]; simpl; [done|].
  rewrite IH. f_equal. lia.
Qed.

Lemma point_max_le (lo hi : point) : Forall2 Z.le lo hi -> point_max lo hi = hi.
Proof.
  unfold point_max. induction 1 as [|l u lo hi Hlu _ IH]; simpl; [done|].
  rewrite IH. f_equal. lia.
Qed.

Lemma foldl_corners (a a' : point) (bs : list (point * point)) :
  Forall box_ok bs ->
  foldl point_min a (corners bs) = foldl point_min a (map fst bs)
  /\ foldl point_max a' (corners bs) = foldl point_max a' (map snd bs).
Proof.
  intros Hbs. revert a a'.
  induction Hbs as [|b bs Hb _ IH]; intros a a'; simpl; [done|].
  rewrite (point_min_absorb _ _ _ Hb), (point_max_absorb _ _ _ Hb).
  apply IH.
Qed.

(** On well-formed boxes the minimum and the maximum over every pooled
    corner are the minimum of the lower corners and the maximum of the
    upper corners. *)
Lemma pool_lower_upper (b : point * point) (bs : list (point * point)) :
  Forall box_ok (b :: bs) ->
  evaluate_bounding_box (corners (b :: bs))
  = Some (foldl point_min (fst b) (map fst bs),
          foldl point_max (snd b) (map snd bs)).
Proof.
  intros [Hb Hbs]%Forall_cons. simpl.
  rewrite (point_min_le _ _ Hb).
  destruct (foldl_corners (fst b) (point_max (fst b) (snd b)) bs Hbs) as [-> ->].
  by rewrite (point_max_le _ _ Hb).
Qed.

(** The boxes [0,1]x[0,1] and [2,3]x[-1,0] are enclosed by [0,3]x[-1,1]. *)
Example bbox_two_curves :
  bbox 1 0%nat two_curves = Done ([0; -1], [3; 1]) two_curves.
Proof. reflexivity. Qed.

(** C9. The bounding box of a container that holds exactly one spline
    geometry, whose own box is well formed (its lower corner is below its
    upper corner on every axis), is that box; the store is not changed. *)
Theorem bbox_single_element (h : store) (self : ref) (c : Container)
    (g : SplineGeometry.t) (n : nat) :
  h !! self = Some c -> _geoms c = [VGeom g] -> box_ok (SplineGeometry.bbox g) ->
  bbox (S n) self h = Done (SplineGeometry.bbox g) h.
Proof.
  intros Hc Hg Hb. cbn [bbox]. unfold bind at 1, deref. rewrite Hc, Hg.
  unfold bind, ret. simpl.
  rewrite (point_min_le _ _ Hb), (point_max_le _ _ Hb).
  by destruct (SplineGeometry.bbox g).
Qed.

Lemma bbox_single_element_witness :
  bbox 1 0%nat one_curve = Done ([2; -1], [3; 0]) one_curve.
Proof.
  apply (bbox_single_element one_curve 0%nat
           (mkContainer CurveContainer [VGeom curve2] [] 0) curve2 0%nat);
    [reflexivity|reflexivity|].
  unfold box_ok. simpl. repeat constructor; lia.
Defined.

(** ** Further properties of indexing *)

(** X1. [__getitem__] raises IndexError exactly on the indexes below
    [-len] or from [len] on, the store being left as it was; on every
    other index it returns the element at position [index mod len]. *)
Theorem getitem_raises_iff (h : store) (self : ref) (c : Container) (i : Z) :
  h !! self = Some c ->
  (__getitem__ self i h = Raise IndexError h
   <-> i < - Z.of_nat (length (_geoms c)) \/ Z.of_nat (length (_geoms c)) <= i)
  /\ (- Z.of_nat (length (_geoms c)) <= i < Z.of_nat (length (_geoms c)) ->
      exists g, _geoms c !! Z.to_nat (i mod Z.of_nat (length (_geoms c))) = Some g
                /\ __getitem__ self i h = Done g h).
Proof.
  intros Hc. set (len := Z.of_nat (length (_geoms c))).
  assert (- len <= i < len ->
          exists g, _geoms c !! Z.to_nat (i mod len) = Some g
                    /\ __getitem__ self i h = Done g h) as Hin.
  { intros Hi. unfold __getitem__, bind, deref, ret. rewrite Hc.
    destruct (Z.ltb_spec i 0) as [Hneg|Hpos].
    - pose proof (list_getitem_negative (_geoms c) (- i) ltac:(lia)) as Hget.
      rewrite Z.opp_involutive in Hget. rewrite Hget.
      replace (Z.to_nat (i mod len)) with (length (_geoms c) - Z.to_nat (- i))%nat.
      2:{ rewrite <- (Z.mod_add i 1 len) by lia. rewrite Z.mod_small by lia. lia. }
      destruct (lookup_lt_is_Some_2 (_geoms c) (length (_geoms c) - Z.to_nat (- i))%nat)
        as [g Hg]; [lia|].
      exists g. by rewrite Hg.
    - rewrite list_getitem_nonneg by done. rewrite Z.mod_small by lia.
      destruct (lookup_lt_is_Some_2 (_geoms c) (Z.to_nat i)) as [g Hg]; [lia|].
      exists g. by rewrite Hg. }
  split; [|done]. split.
  - intros Hraise.
    destruct (Z.ltb_spec i (- len)); [by left|].
    destruct (Z.leb_spec len i); [by right|].
    destruct Hin as (g & _ & Hg); [lia|]. congruence.
  - intros Hout. unfold __getitem__, bind, deref, raise. rewrite Hc.
    unfold list_getitem. fold len.
    destruct (Z.ltb_spec i 0).
    + destruct (Z.ltb_spec (i + len) 0); [done|lia].
    + destruct (Z.ltb_spec i 0); [lia|]. simpl.
      destruct (Z.leb_spec len i); [done|lia].
Qed.

Lemma getitem_raises_iff_witness :
  (__getitem__ 0%nat (-3) two_curves = Raise IndexError two_curves
   <-> -3 < - Z.of_nat (length [VGeom curve1; VGeom curve2])
       \/ Z.of_nat (length [VGeom curve1; VGeom curve2]) <= -3)
  /\ (- Z.of_nat (length [VGeom curve1; VGeom curve2]) <= -3
        < Z.of_nat (length [VGeom curve1; VGeom curve2]) ->
      exists g,
        [VGeom curve1; VGeom curve2]
          !! Z.to_nat (-3 mod Z.of_nat (length [VGeom curve1; VGeom curve2])) = Some g
        /\ __getitem__ 0%nat (-3) two_curves = Done g two_curves).
Proof.
  exact (getitem_raises_iff two_curves 0%nat
           (mkContainer CurveContainer [VGeom curve1; VGeom curve2] [] 0) (-3)
           eq_refl).
Defined.

(** X2. Once a spline geometry has been added, it is the last element:
    index [-1] and index [len] (the former length) both return it, the
    length has grown by one, and every former index still returns what it
    returned. *)
Theorem add_then_getitem (h : store) (self : ref) (c : Container)
    (g : SplineGeometry.t) (n : nat) :
  h !! self = Some c ->
  exists h',
    add (S n) self (VGeom g) h = Done tt h'
    /\ __getitem__ self (-1) h' = Done (VGeom g) h'
    /\ __getitem__ self (Z.of_nat (length (_geoms c))) h' = Done (VGeom g) h'
    /\ __len__ self h' = Done (Z.of_nat (length (_geoms c)) + 1) h'
    /\ forall (i : nat) x, _geoms c !! i = Some x ->
         __getitem__ self (Z.of_nat i) h' = Done x h'.
Proof.
  intros Hc. pose proof (lookup_lt_Some _ _ _ Hc) as Hl.
  eexists. split; [by apply add_spline|].
  unfold __getitem__, __len__, bind, deref, ret.
  rewrite list_lookup_insert_eq by done. simpl.
  split_and!.
  - rewrite (list_getitem_negative _ 1) by (rewrite length_app; simpl; lia).
    rewrite length_app. simpl.
    replace (length (_geoms c) + 1 - Z.to_nat 1)%nat with (length (_geoms c) + 0)%nat by lia.
    by rewrite lookup_app_r, Nat.add_comm, Nat.add_sub by lia.
  - rewrite list_getitem_nonneg, Nat2Z.id by lia.
    by rewrite lookup_app_r, Nat.sub_diag by lia.
  - rewrite length_app. simpl. f_equal. lia.
  - intros i x Hx. rewrite list_getitem_nonneg, Nat2Z.id by lia.
    by rewrite lookup_app_l, Hx by by eapply lookup_lt_Some.
Qed.

Lemma add_then_getitem_witness :
  exists h',
    add 1 0%nat (VGeom surface1) two_curves = Done tt h'
    /\ __getitem__ 0%nat (-1) h' = Done (VGeom surface1) h'
    /\ __getitem__ 0%nat (Z.of_nat (length [VGeom curve1; VGeom curve2])) h'
       = Done (VGeom surface1) h'
    /\ __len__ 0%nat h'
       = Done (Z.of_nat (length [VGeom curve1; VGeom curve2]) + 1) h'
    /\ forall (i : nat) x, [VGeom curve1; VGeom curve2] !! i = Some x ->
         __getitem__ 0%nat (Z.of_nat i) h' = Done x h'.
Proof.
  exact (add_then_getitem two_curves 0%nat
           (mkContainer CurveContainer [VGeom curve1; VGeom curve2] [] 0)
           surface1 0%nat eq_refl).
Defined.

(** ** Further properties of insertion and merging *)

(** X3. The merge operator takes containers only: on a spline geometry, a
    sequence or any other object it raises GeomdlError and leaves the store
    as it was, although [add] accepts a spline geometry and changes the
    store. *)
Theorem merge_needs_container (h : store) (self : ref) (c : Container)
    (other : value) (n : nat) :
  h !! self = Some c -> (forall r, other <> VCont r) ->
  __add__ n self other h = Raise GeomdlError h
  /\ (isinstance_spline other = true ->
      exists h', add (S n) self other h = Done tt h' /\ h' <> h).
Proof.
  intros Hc Hother. split.
  - unfold __add__, bind, deref. rewrite Hc.
    destruct other as [g|items|r|]; try done. by destruct (Hother r).
  - destruct other as [g| | |]; try done. intros _.
    eexists. split; [by apply add_spline|].
    intros Heq. apply (f_equal (fun s => geoms_of s self)) in Heq.
    unfold geoms_of in Heq.
    rewrite list_lookup_insert_eq, Hc in Heq by by eapply lookup_lt_Some.
    simpl in Heq. apply (f_equal length) in Heq. rewrite length_app in Heq.
    simpl in Heq. lia.
Qed.

Lemma merge_needs_container_witness :
  __add__ 5 0%nat (VGeom curve2) cached_curve
    = Raise GeomdlError cached_curve
  /\ (isinstance_spline (VGeom curve2) = true ->
      exists h', add 6 0%nat (VGeom curve2) cached_curve = Done tt h'
                 /\ h' <> cached_curve).
Proof.
  apply (merge_needs_container cached_curve 0%nat
           (mkContainer CurveContainer [VGeom curve1] [[0; 0]; [1; 1]] 0)
           (VGeom curve2) 5%nat); [reflexivity|discriminate].
Defined.

(** X4. Whatever [add] ends in, a return or an exception, it creates no
    object and changes no class; the former elements of the receiver are
    still there, in order, at the front of its elements; every other
    container keeps its elements and its cache slot; and every element of
    every container is still a spline geometry. *)
Theorem add_frame (n : nat) (self : ref) (v : value) (h h' : store) (c : Container) :
  h !! self = Some c -> store_ok h ->
  add n self v h = Done tt h' \/ (exists e, add n self v h = Raise e h') ->
  store_ok h' /\ length h' = length h
  /\ (exists c' l, h' !! self = Some c' /\ __class__ c' = __class__ c
                   /\ _geoms c' = _geoms c ++ l)
  /\ (forall r cr, r <> self -> h !! r = Some cr ->
        exists cr', h' !! r = Some cr' /\ __class__ cr' = __class__ cr
                    /\ _geoms cr' = _geoms cr
                    /\ _cache_evalpts cr' = _cache_evalpts cr).
Proof.
  intros Hc Hok Hrun.
  pose proof (add_sound n self v h c Hc Hok) as Hs.
  assert (exists l, Forall is_spline l /\ evolve self l h h') as (l & Hl & Hev).
  { destruct Hrun as [Hrun|[e Hrun]]; rewrite Hrun in Hs.
    - destruct Hs as (l & d & _ & Hl & Hp). exists l. split; [done|apply Hp].
    - destruct Hs as (_ & l & d & _ & Hl & Hp). exists l. split; [done|apply Hp]. }
  split_and!.
  - by eapply evolve_store_ok.
  - apply Hev.
  - destruct (ev_self _ _ _ _ Hev c Hc) as (c' & Hc' & Hk & Hg). by exists c', l.
  - intros r cr Hr Hcr. by apply (ev_other _ _ _ _ Hev).
Qed.

Lemma add_frame_witness :
  store_ok [mkContainer CurveContainer [VGeom curve1; VGeom curve2] [] 0]
  /\ length [mkContainer CurveContainer [VGeom curve1; VGeom curve2] [] 0]
     = length cached_curve
  /\ (exists c' l,
        [mkContainer CurveContainer [VGeom curve1; VGeom curve2] [] 0] !! 0%nat
          = Some c'
        /\ __class__ c' = CurveContainer
        /\ _geoms c' = [VGeom curve1] ++ l)
  /\ (forall r cr, r <> 0%nat -> cached_curve !! r = Some cr ->
        exists cr',
          [mkContainer CurveContainer [VGeom curve1; VGeom curve2] [] 0] !! r
            = Some cr'
          /\ __class__ cr' = __class__ cr /\ _geoms cr' = _geoms cr
          /\ _cache_evalpts cr' = _cache_evalpts cr).
Proof.
  apply (add_frame 2%nat 0%nat (VSeq [VGeom curve2; VObject]) cached_curve
           [mkContainer CurveContainer [VGeom curve1; VGeom curve2] [] 0]
           (mkContainer CurveContainer [VGeom curve1] [[0; 0]; [1; 1]] 0)).
  - reflexivity.
  - intros [|r] c0 Hc0; [|done]. injection Hc0 as <-. by repeat constructor.
  - right. exists GeomdlError. reflexivity.
Defined.

(** X5. A container added to itself: while it holds no element the call
    returns and appends nothing; once it holds one the call never returns,
    whatever the fuel, because the loop appends to the list it walks; and
    so does adding a sequence that brings a geometry and then the receiver
    itself. *)
Theorem add_into_itself (h : store) (self : ref) (c : Container) (n : nat) :
  h !! self = Some c -> Forall is_spline (_geoms c) ->
  (_geoms c = [] ->
   add (S (S n)) self (VCont self) h
   = Done tt (<[self := mkContainer (__class__ c) [] [] 0]> h))
  /\ (_geoms c <> [] -> forall m, add m self (VCont self) h = Timeout)
  /\ (forall m g rest,
        add m self (VSeq (VGeom g :: VCont self :: rest)) h = Timeout).
Proof.
  intros Hc Hsp. pose proof (lookup_lt_Some _ _ _ Hc) as Hl.
  assert (forall h0 c0, h0 !! self = Some c0 -> Forall is_spline (_geoms c0) ->
            _geoms c0 <> [] -> forall m, add m self (VCont self) h0 = Timeout)
    as Hloop.
  { intros h0 c0 Hc0 Hsp0 Hne [|m]; [done|].
    rewrite (add_eq _ _ _ _ _ Hc0). simpl. rewrite Hc0.
    rewrite bool_decide_eq_true_2 by done. simpl.
    unfold bind. rewrite (iter_eq _ _ _ Hc0).
    rewrite (for_next_self_diverges m self m _ (set_iter c0 0)); [done| |done|].
    - apply list_lookup_insert_eq. by eapply lookup_lt_Some.
    - simpl. destruct (_geoms c0); [done|]. simpl. lia. }
  split_and!.
  - intros Hnil. rewrite (add_eq _ _ _ _ _ Hc). simpl. rewrite Hc.
    rewrite bool_decide_eq_true_2 by done. simpl.
    unfold bind. rewrite (iter_eq _ _ _ Hc). cbn [for_next].
    erewrite next_eq by by apply list_lookup_insert_eq.
    simpl. rewrite Hnil. simpl.
    erewrite reset_eq by by apply list_lookup_insert_eq.
    rewrite list_insert_insert_eq. unfold set_cache, set_iter. simpl.
    by rewrite Hnil.
  - intros Hne m. by apply (Hloop h c).
  - intros [|m] g rest; [done|].
    rewrite (add_eq _ _ _ _ _ Hc). simpl. unfold bind.
    destruct m as [|m]; [done|].
    rewrite (add_spline _ _ _ _ _ Hc).
    erewrite Hloop; [done|by apply list_lookup_insert_eq| |].
    + simpl. apply Forall_app. split; [done|]. by repeat constructor.
    + simpl. by destruct (_geoms c).
Qed.

Lemma add_into_itself_witness :
  ([VGeom curve2] = [] ->
   add 2 0%nat (VCont 0%nat) one_curve
   = Done tt (<[0%nat := mkContainer CurveContainer [] [] 0]> one_curve))
  /\ ([VGeom curve2] <> [] -> forall m, add m 0%nat (VCont 0%nat) one_curve = Timeout)
  /\ (forall m g rest,
        add m 0%nat (VSeq (VGeom g :: VCont 0%nat :: rest)) one_curve = Timeout).
Proof.
  apply (add_into_itself one_curve 0%nat
           (mkContainer CurveContainer [VGeom curve2] [] 0) 0%nat);
    [reflexivity|by repeat constructor].
Defined.

(** ** Further properties of iteration *)

(** X6. A traversal that has reached the end keeps raising StopIteration
    without changing the store, but it is not over for good: after a
    spline geometry is added, [__next__] returns that geometry, and then
    raises StopIteration again. *)
Theorem next_resumes_after_add (h : store) (self : ref) (c : Container)
    (g : SplineGeometry.t) (n : nat) :
  h !! self = Some c -> _iter_index c = Z.of_nat (length (_geoms c)) ->
  __next__ self h = Raise StopIteration h
  /\ exists h1 h2,
       add (S n) self (VGeom g) h = Done tt h1
       /\ __next__ self h1 = Done (VGeom g) h2
       /\ __next__ self h2 = Raise StopIteration h2.
Proof.
  intros Hc Hidx. pose proof (lookup_lt_Some _ _ _ Hc) as Hl. split.
  - rewrite (next_eq _ _ _ Hc), Hidx, list_getitem_nonneg, Nat2Z.id by lia.
    by rewrite (proj2 (lookup_ge_None _ _)).
  - do 2 eexists. split; [by apply add_spline|].
    erewrite next_eq by by apply list_lookup_insert_eq.
    simpl. rewrite Hidx, list_getitem_nonneg, Nat2Z.id by lia.
    rewrite lookup_app_r, Nat.sub_diag by lia. simpl.
    split; [done|].
    erewrite next_eq by (apply list_lookup_insert_eq; by rewrite length_insert).
    simpl. rewrite list_getitem_nonneg by lia.
    rewrite (proj2 (lookup_ge_None _ _)); [done|].
    rewrite length_app. simpl. lia.
Qed.

Lemma next_resumes_after_add_witness :
  __next__ 0%nat empty_curves = Raise StopIteration empty_curves
  /\ exists h1 h2,
       add 1 0%nat (VGeom curve1) empty_curves = Done tt h1
       /\ __next__ 0%nat h1 = Done (VGeom curve1) h2
       /\ __next__ 0%nat h2 = Raise StopIteration h2.
Proof.
  exact (next_resumes_after_add empty_curves 0%nat
           (mkContainer CurveContainer [] [] 0) curve1 0%nat eq_refl eq_refl).
Defined.

(** ** Further properties of the evaluated points *)

(** X7. Cache coherence. In a store where every populated cache slot holds
    the evaluated points of the elements, [add] keeps it so, whether it
    returns or raises, and [evalpts] keeps it so and returns exactly the
    evaluated points of the current elements, in element order: a stale
    sequence is never returned. *)
Theorem cache_coherence (h : store) (self : ref) (c : Container) :
  h !! self = Some c -> store_ok h -> cache_ok h ->
  (forall n v h',
     add n self v h = Done tt h' \/ (exists e, add n self v h = Raise e h') ->
     cache_ok h')
  /\ (forall n, exists h',
        evalpts (S n) self h = Done (flat_map elem_evalpts (_geoms c)) h'
        /\ cache_ok h' /\ store_ok h').
Proof.
  intros Hc Hok Hcok. pose proof (lookup_lt_Some _ _ _ Hc) as Hl. split.
  - intros n v h' Hrun.
    pose proof (add_sound n self v h c Hc Hok) as Hs.
    assert (exists l d, post self l d h h') as (l & d & [Hev Hcache Hclean]).
    { destruct Hrun as [Hrun|[e Hrun]]; rewrite Hrun in Hs.
      - destruct Hs as (l & d & _ & _ & Hp). by exists l, (true || d).
      - destruct Hs as (_ & l & d & _ & _ & Hp). by exists l, d. }
    destruct d; [|by rewrite Hclean].
    intros r c' Hc'. destruct (decide (r = self)) as [->|Hr].
    + left. unfold cache_of in Hcache. by rewrite Hc' in Hcache.
    + assert (r < length h)%nat as Hlt.
      { rewrite <- (ev_length _ _ _ _ Hev). by eapply lookup_lt_Some. }
      destruct (lookup_lt_is_Some_2 h r Hlt) as [cr Hcr].
      destruct (ev_other _ _ _ _ Hev r cr Hr Hcr) as (c'' & Hc'' & _ & Hg & Hca).
      assert (c'' = c') as -> by congruence.
      rewrite Hg, Hca. by eapply Hcok.
  - intros n. pose proof (Hok _ _ Hc) as Hsp.
    destruct (cache_hit c) eqn:Hhit.
    + exists h. rewrite (evalpts_hit _ _ _ _ Hc Hhit).
      destruct (Hcok _ _ Hc) as [Hnil| ->]; [|done].
      unfold cache_hit in Hhit. by rewrite Hnil in Hhit.
    + eexists. rewrite (evalpts_miss _ _ _ _ Hc Hhit Hsp). split_and!; [done| |].
      * intros r c' Hc'. destruct (decide (r = self)) as [->|Hr].
        -- rewrite list_lookup_insert_eq in Hc' by done. injection Hc' as <-.
           by right.
        -- rewrite list_lookup_insert_ne in Hc' by done. by eapply Hcok.
      * intros r c' Hc'. destruct (decide (r = self)) as [->|Hr].
        -- rewrite list_lookup_insert_eq in Hc' by done. by injection Hc' as <-.
        -- rewrite list_lookup_insert_ne in Hc' by done. by eapply Hok.
Qed.

Lemma cached_curve_ok : store_ok cached_curve /\ cache_ok cached_curve.
Proof.
  split; intros [|r] c0 Hc0; try done; injection Hc0 as <-.
  - by repeat constructor.
  - by right.
Defined.

Lemma cache_coherence_witness :
  (forall n v h',
     add n 0%nat v cached_curve = Done tt h'
     \/ (exists e, add n 0%nat v cached_curve = Raise e h') ->
     cache_ok h')
  /\ (forall n, exists h',
        evalpts (S n) 0%nat cached_curve
        = Done (flat_map elem_evalpts [VGeom curve1]) h'
        /\ cache_ok h' /\ store_ok h').
Proof.
  exact (cache_coherence cached_curve 0%nat
           (mkContainer CurveContainer [VGeom curve1] [[0; 0]; [1; 1]] 0)
           eq_refl (proj1 cached_curve_ok) (proj2 cached_curve_ok)).
Defined.

(** X8. After two distinct containers of one class are merged, the
    evaluated points of the receiver are its former elements' points
    followed by those of the elements of the other container, whatever the
    receiver's cache slot held before; the cache slot of the other
    container is as it was. *)
Theorem evalpts_after_merge (h : store) (a b : ref) (ca cb : Container) :
  a <> b -> h !! a = Some ca -> h !! b = Some cb ->
  __class__ cb = __class__ ca -> store_ok h ->
  exists fuel, forall n, (fuel <= n)%nat ->
    exists h' h'',
      __add__ n a (VCont b) h = Done a h'
      /\ evalpts 1 a h'
         = Done (flat_map elem_evalpts (_geoms ca)
                 ++ flat_map elem_evalpts (_geoms cb)) h''
      /\ cache_of h'' b = _cache_evalpts cb
      /\ geoms_of h'' b = _geoms cb.
Proof.
  intros Hab Ha Hb Hk Hok. exists (fuel_for h (VCont b)). intros n Hn.
  assert (insertable h a (__class__ ca) (VCont b) = true) as Hins.
  { simpl. rewrite Hb, Hk. rewrite !bool_decide_eq_true_2; done. }
  destruct (add_total n a (VCont b) h ca Ha Hok Hins Hn) as [h' Hrun].
  pose proof (add_sound n a (VCont b) h ca Ha Hok) as Hs. rewrite Hrun in Hs.
  destruct (Hs) as (l & d & Hscan & Hl & [Hev Hcache _]).
  simpl in Hscan. rewrite Hb, Hk in Hscan.
  rewrite bool_decide_eq_true_2, decide_False in Hscan by done.
  injection Hscan as <- <-.
  destruct (ev_self _ _ _ _ Hev ca Ha) as (ca' & Ha' & Hka & Hga).
  destruct (ev_other _ _ _ _ Hev b cb ltac:(done) Hb) as (cb' & Hb' & Hkb & Hgb & Hcb).
  assert (cache_hit ca' = false) as Hmiss.
  { unfold cache_of in Hcache. rewrite Ha' in Hcache. simpl in Hcache.
    unfold cache_hit. by rewrite Hcache. }
  assert (Forall is_spline (_geoms ca')) as Hsp.
  { rewrite Hga. apply Forall_app. split; [by eapply Hok|done]. }
  do 2 eexists. split_and!.
  - unfold __add__, bind, deref. rewrite Ha. simpl. rewrite Hb, Hk.
    rewrite bool_decide_eq_true_2 by done. simpl. by rewrite Hrun.
  - rewrite (evalpts_miss _ _ _ _ Ha' Hmiss Hsp), Hga. by rewrite flat_map_app.
  - unfold cache_of. rewrite list_lookup_insert_ne by done. by rewrite Hb'.
  - unfold geoms_of. rewrite list_lookup_insert_ne by done. by rewrite Hb'.
Qed.

Lemma evalpts_after_merge_witness :
  exists fuel, forall n, (fuel <= n)%nat ->
    exists h' h'',
      __add__ n 0%nat (VCont 1%nat) curves_pair = Done 0%nat h'
      /\ evalpts 1 0%nat h'
         = Done (flat_map elem_evalpts [VGeom curve1]
                 ++ flat_map elem_evalpts [VGeom curve2; VGeom blank1]) h''
      /\ cache_of h'' 1%nat = []
      /\ geoms_of h'' 1%nat = [VGeom curve2; VGeom blank1].
Proof.
  apply (evalpts_after_merge curves_pair 0%nat 1%nat
           (mkContainer CurveContainer [VGeom curve1] [] 0)
           (mkContainer CurveContainer [VGeom curve2; VGeom blank1] [] 0));
    [discriminate|reflexivity|reflexivity|reflexivity|exact curves_pair_ok].
Defined.

(** ** The [data] property *)

Lemma data_items {D} (elem_data : SplineGeometry.t -> D) (n : nat) (h : store) :
  forall gs, Forall is_spline gs ->
    (fix each (l : list value) : M (list (pydata D)) :=
       match l with
       | [] => ret []
       | g :: l' =>
           let* d := match g with
                     | VGeom sg => ret (PData (elem_data sg))
                     | VCont r => data elem_data n r
                     | _ => raise AttributeError
                     end in
           let* rest := each l' in
           ret (d :: rest)
       end) gs h
    = Done (map (elem_export elem_data) gs) h.
Proof.
  induction gs as [|g gs IH]; intros Hsp; [done|].
  apply Forall_cons in Hsp as [Hg Hgs]. destruct g as [sg| | |]; try done.
  specialize (IH Hgs). unfold bind, ret in *. simpl. by rewrite IH.
Qed.

(** X9. [data] returns one export for each element, in element order, and
    leaves the store as it is: nothing is cached. After a spline geometry
    is added its export comes last. *)
Theorem data_per_element {D} (elem_data : SplineGeometry.t -> D)
    (h : store) (self : ref) (c : Container) (n : nat) :
  h !! self = Some c -> Forall is_spline (_geoms c) ->
  data elem_data (S n) self h
  = Done (PTuple (map (elem_export elem_data) (_geoms c))) h
  /\ forall m g, exists h',
       add (S m) self (VGeom g) h = Done tt h'
       /\ data elem_data (S n) self h'
          = Done (PTuple (map (elem_export elem_data) (_geoms c)
                          ++ [PData (elem_data g)])) h'.
Proof.
  intros Hc Hsp. pose proof (lookup_lt_Some _ _ _ Hc) as Hl.
  assert (forall h0 c0, h0 !! self = Some c0 -> Forall is_spline (_geoms c0) ->
            data elem_data (S n) self h0
            = Done (PTuple (map (elem_export elem_data) (_geoms c0))) h0) as Hdata.
  { intros h0 c0 Hc0 Hsp0. cbn [data]. unfold bind at 1, deref. rewrite Hc0.
    unfold bind at 1. by rewrite (data_items elem_data n h0 _ Hsp0). }
  split; [by apply Hdata|].
  intros m g. eexists. split; [by apply add_spline|].
  erewrite Hdata; [|by apply list_lookup_insert_eq|].
  - simpl. by rewrite map_app.
  - simpl. apply Forall_app. split; [done|]. by repeat constructor.
Qed.

Lemma data_per_element_witness :
  data SplineGeometry.kind 1 0%nat two_curves
  = Done (PTuple (map (elem_export SplineGeometry.kind)
                    [VGeom curve1; VGeom curve2])) two_curves
  /\ forall m g, exists h',
       add (S m) 0%nat (VGeom g) two_curves = Done tt h'
       /\ data SplineGeometry.kind 1 0%nat h'
          = Done (PTuple (map (elem_export SplineGeometry.kind)
                            [VGeom curve1; VGeom curve2]
                          ++ [PData (SplineGeometry.kind g)])) h'.
Proof.
  apply (data_per_element SplineGeometry.kind two_curves 0%nat
           (mkContainer CurveContainer [VGeom curve1; VGeom curve2] [] 0) 0%nat);
    [reflexivity|by repeat constructor].
Defined.

(** ** Further properties of bounding boxes *)

Lemma bbox_pool (n : nat) (h : store) :
  forall gs, Forall is_spline gs ->
    (fix pool (l : list value) : M (list point) :=
       match l with
       | [] => ret []
       | g :: l' =>
           let* b := match g with
                     | VGeom sg => ret (SplineGeometry.bbox sg)
                     | VCont r => bbox n r
                     | _ => raise AttributeError
                     end in
           let* rest := pool l' in
           ret ([fst b; snd b] ++ rest)
       end) gs h
    = Done (corners (map elem_bbox gs)) h.
Proof.
  induction gs as [|g gs IH]; intros Hsp; [done|].
  apply Forall_cons in Hsp as [Hg Hgs]. destruct g as [sg| | |]; try done.
  specialize (IH Hgs). unfold bind, ret in *. simpl in *. by rewrite IH.
Qed.

Lemma Forall2_le_trans (p q r : point) :
  Forall2 Z.le p q -> Forall2 Z.le q r -> Forall2 Z.le p r.
Proof.
  intros Hpq. revert r. induction Hpq as [|x y p q Hxy _ IH]; intros r Hqr.
  - by inversion Hqr.
  - inversion Hqr as [|y' z q' r' Hyz Hqr']; subst. constructor; [lia|by apply IH].
Qed.

Lemma point_min_bounds (a x : point) :
  length a = length x ->
  length (point_min a x) = length a
  /\ Forall2 Z.le (point_min a x) a /\ Forall2 Z.le (point_min a x) x.
Proof.
  unfold point_min. revert x. induction a as [|u a IH]; intros [|v x] Hlen;
    simpl in *; try done.
  destruct (IH x) as (Hl & Ha & Hx); [lia|].
  split_and!; [by rewrite Hl|constructor; [lia|done]|constructor; [lia|done]].
Qed.

Lemma point_max_bounds (a x : point) :
  length a = length x ->
  length (point_max a x) = length a
  /\ Forall2 Z.le a (point_max a x) /\ Forall2 Z.le x (point_max a x).
Proof.
  unfold point_max. revert x. induction a as [|u a IH]; intros [|v x] Hlen;
    simpl in *; try done.
  destruct (IH x) as (Hl & Ha & Hx); [lia|].
  split_and!; [by rewrite Hl|constructor; [lia|done]|constructor; [lia|done]].
Qed.

Lemma Forall2_le_refl (p : point) : Forall2 Z.le p p.
Proof. induction p; constructor; [lia|done]. Qed.

Lemma foldl_min_bounds (d : nat) (l : list point) :
  forall a, length a = d -> Forall (fun x => length x = d) l ->
    length (foldl point_min a l) = d
    /\ Forall2 Z.le (foldl point_min a l) a
    /\ Forall (fun x => Forall2 Z.le (foldl point_min a l) x) l.
Proof.
  induction l as [|x l IH]; intros a Ha Hl; simpl.
  { split_and!; [done|apply Forall2_le_refl|done]. }
  apply Forall_cons in Hl as [Hx Hl].
  destruct (point_min_bounds a x) as (Hlen & Hma & Hmx); [congruence|].
  destruct (IH (point_min a x)) as (Hd & Hm & Hall); [congruence|done|].
  split_and!; [done|by eapply Forall2_le_trans|].
  constructor; [by eapply Forall2_le_trans|done].
Qed.

Lemma foldl_max_bounds (d : nat) (l : list point) :
  forall a, length a = d -> Forall (fun x => length x = d) l ->
    length (foldl point_max a l) = d
    /\ Forall2 Z.le a (foldl point_max a l)
    /\ Forall (fun x => Forall2 Z.le x (foldl point_max a l)) l.
Proof.
  induction l as [|x l IH]; intros a Ha Hl; simpl.
  { split_and!; [done|apply Forall2_le_refl|done]. }
  apply Forall_cons in Hl as [Hx Hl].
  destruct (point_max_bounds a x) as (Hlen & Hma & Hmx); [congruence|].
  destruct (IH (point_max a x)) as (Hd & Hm & Hall); [congruence|done|].
  split_and!; [done|by eapply Forall2_le_trans|].
  constructor; [by eapply Forall2_le_trans|done].
Qed.

(** X10. For a container with at least one element, all of them spline
    geometries whose boxes are well formed and of one dimension [d],
    [bbox] returns a box of dimension [d] that encloses the box of every
    element, and it leaves the store as it is. *)
Theorem bbox_encloses (h : store) (self : ref) (c : Container) (d n : nat) :
  h !! self = Some c -> _geoms c <> [] ->
  Forall (fun v => is_spline v /\ box_ok (elem_bbox v)
                   /\ length (fst (elem_bbox v)) = d) (_geoms c) ->
  exists b,
    bbox (S n) self h = Done b h
    /\ length (fst b) = d /\ length (snd b) = d
    /\ Forall (fun v => encloses b (elem_bbox v)) (_geoms c).
Proof.
  intros Hc Hne Hall.
  assert (Forall is_spline (_geoms c)) as Hsp.
  { eapply Forall_impl; [exact Hall|]. by intros v (? & _). }
  assert (Forall box_ok (map elem_bbox (_geoms c))) as Hboxes.
  { apply Forall_fmap. eapply Forall_impl; [exact Hall|]. by intros v (_ & ? & _). }
  assert (Forall (fun x => length x = d) (map fst (map elem_bbox (_geoms c)))) as Hlo.
  { rewrite map_map. apply Forall_fmap.
    eapply Forall_impl; [exact Hall|]. by intros v (_ & _ & ?). }
  assert (Forall (fun x => length x = d) (map snd (map elem_bbox (_geoms c)))) as Hhi.
  { rewrite map_map. apply Forall_fmap.
    eapply Forall_impl; [exact Hall|]. intros v (_ & Hb & Hd). simpl.
    rewrite <- Hd. symmetry. by eapply Forall2_length. }
  cbn [bbox]. unfold bind at 1, deref. rewrite Hc. unfold bind at 1.
  rewrite (bbox_pool n h _ Hsp).
  destruct (_geoms c) as [|g gs]; [done|]. cbn [map] in *.
  rewrite (pool_lower_upper _ _ Hboxes). unfold ret. cbn [map] in Hlo, Hhi.
  apply Forall_cons in Hlo as [Hlo0 Hlo]. apply Forall_cons in Hhi as [Hhi0 Hhi].
  destruct (foldl_min_bounds d _ _ Hlo0 Hlo) as (Hdl & Hl0 & Hls).
  destruct (foldl_max_bounds d _ _ Hhi0 Hhi) as (Hdh & Hh0 & Hhs).
  eexists. split_and!; [done|done|done|].
  constructor; [by split|].
  rewrite !Forall_fmap in Hls, Hhs.
  apply Forall_forall. intros v Hv.
  rewrite Forall_forall in Hls, Hhs. split; [by apply Hls|by apply Hhs].
Qed.

Lemma bbox_encloses_witness :
  exists b,
    bbox 1 0%nat two_curves = Done b two_curves
    /\ length (fst b) = 2%nat /\ length (snd b) = 2%nat
    /\ Forall (fun v => encloses b (elem_bbox v)) [VGeom curve1; VGeom curve2].
Proof.
  apply (bbox_encloses two_curves 0%nat
           (mkContainer CurveContainer [VGeom curve1; VGeom curve2] [] 0)
           2%nat 0%nat); [reflexivity|discriminate|].
  repeat constructor; simpl; lia.
Defined.

(** ** The constructor *)



(** ** Witnesses for the constructor and for the merge of a container with itself *)

Lemma init_flattens_witness :
  exists fuel, forall n, (fuel <= n)%nat ->
    exists h' c',
      __init__ n CurveContainer [VGeom curve2; VSeq [VCont 1%nat; VGeom surface1]]
        curves_pair = Done (length curves_pair) h'
      /\ h' !! length curves_pair = Some c' /\ __class__ c' = CurveContainer
      /\ _geoms c'
         = flat_map (leaves (curves_pair ++ [mkContainer CurveContainer [] [] 0]))
             [VGeom curve2; VSeq [VCont 1%nat; VGeom surface1]]
      /\ store_ok h'.
Proof.
  exact (init_flattens curves_pair CurveContainer
           [VGeom curve2; VSeq [VCont 1%nat; VGeom surface1]]
           curves_pair_ok eq_refl).
Defined.

Lemma merge_with_itself_diverges_witness :
  __add__ 100 0%nat (VCont 0%nat) one_curve = Timeout.
Proof.
  apply (merge_with_itself_diverges one_curve 0%nat
           (mkContainer CurveContainer [VGeom curve2] [] 0) 100%nat);
    [reflexivity|by repeat constructor|discriminate].
Defined.
